(** * clean_outliers: IQR outlier removal over a pandas DataFrame

    A shallow embedding of [src/clean_outliers.py].  The routine copies the
    frame it is given, walks over the columns in declared order, and for
    each numeric column computes the quartiles of the rows still present,
    prints and collects the rows outside [Q1 - 1.5*IQR, Q3 + 1.5*IQR],
    and drops them.  The collected rows are written to a CSV file and the
    narrowed frame is returned.

    Conventions of the embedding:
    - a finite number is an exact rational ([Q]); a missing number (NaN) is
      [None].  The arithmetic of lines 61-72 is carried out exactly: the
      rounding, the overflow and the infinities of float64 are outside the
      model, and so is the textual rendering of a number.  A statement
      whose truth could turn on rounding is restricted to data on which
      the float64 computation is exact (see [binary64]);
    - a frame is held row-wise; the column labels are taken to be pairwise
      distinct (as in any frame built from a dict or read from a file), so
      [cleaned_data[column]] is the column at the position of [column];
    - the column dtypes are int64, float64 and object, the last standing
      for every dtype that [is_numeric_dtype] rejects.  Columns of dtype
      bool or complex and the nullable extension dtypes, which pandas
      counts as numeric, are not represented (see [plain_frame]);
    - [iterrows] hands out a row with the values the frame stores; the
      conversion of a row that mixes int64 and float64 to float64 is not
      modelled;
    - Python objects live in a heap; [data.copy()] and boolean indexing
      allocate a new frame and leave the old one alone. *)

From Stdlib Require Import String List ZArith QArith Qround Bool Lia.
From Stdlib Require Import Permutation Sorted Arith Lqa.
Import ListNotations.

Set Implicit Arguments.

(** ** Numbers with a missing value *)

Module Float.

Definition float := option Q.

Definition nan : float := None.

Definition lift2 (f : Q -> Q -> Q) (x y : float) : float :=
  match x, y with
  | Some a, Some b => Some (f a b)
  | _, _ => None
  end.

Definition add := lift2 Qplus.
Definition sub := lift2 Qminus.
Definition mul := lift2 Qmult.

Definition Qlt_bool (a b : Q) : bool := negb (Qle_bool b a).

(** Every comparison with NaN is false. *)
Definition lt (x y : float) : bool :=
  match x, y with
  | Some a, Some b => Qlt_bool a b
  | _, _ => false
  end.

Definition gt (x y : float) : bool := lt y x.

End Float.

Import Float.

Declare Scope float_scope.
Delimit Scope float_scope with fl.
Infix "+" := Float.add : float_scope.
Infix "-" := Float.sub : float_scope.
Infix "*" := Float.mul : float_scope.
Infix "<" := Float.lt : float_scope.
Infix ">" := Float.gt : float_scope.

(** ** Series.quantile

    pandas drops the missing values, sorts what is left and hands it to
    numpy's percentile with the default linear method: the virtual index
    is [q * (n - 1)], its floor is the previous rank, the next rank is one
    more (clipped to [n - 1]), and the result is the linear interpolation
    between the two by the fractional part.  No value left gives NaN. *)

Fixpoint dropna (s : list float) : list Q :=
  match s with
  | [] => []
  | Some x :: s' => x :: dropna s'
  | None :: s' => dropna s'
  end.

Fixpoint insert (x : Q) (l : list Q) : list Q :=
  match l with
  | [] => [x]
  | y :: l' => if Qle_bool x y then x :: y :: l' else y :: insert x l'
  end.

Fixpoint sort (l : list Q) : list Q :=
  match l with
  | [] => []
  | x :: l' => insert x (sort l')
  end.

Definition lerp (a b t : Q) : Q := a + (b - a) * t.

Definition virtual_index (q : Q) (n : nat) : Q :=
  q * (inject_Z (Z.of_nat n) - 1).

Definition percentile (q : Q) (arr : list Q) : float :=
  match arr with
  | [] => nan
  | x0 :: _ =>
      let n := length arr in
      let idx := virtual_index q n in
      let previous := Z.to_nat (Qfloor idx) in
      let next := Nat.min (previous + 1) (n - 1) in
      let gamma := idx - inject_Z (Z.of_nat previous) in
      Some (lerp (nth previous arr x0) (nth next arr x0) gamma)
  end.

Definition quantile (q : Q) (s : list float) : float :=
  percentile q (sort (dropna s)).

(** ** Frames *)

Inductive value :=
| VNum (x : Q)
| VNaN
| VStr (s : string).

(** The number held by a cell of a numeric column.  A numeric column holds
    no string; the last case only makes the function total. *)
Definition to_float (v : value) : float :=
  match v with
  | VNum x => Some x
  | VNaN => nan
  | VStr _ => nan
  end.

Inductive dtype := int64 | float64 | object.

Definition is_numeric_dtype (d : dtype) : bool :=
  match d with
  | int64 | float64 => true
  | object => false
  end.

(** A row keeps the index label it had in the caller's frame. *)
Record Row := { label : Z; cells : list value }.

Record DataFrame := { schema : list (string * dtype); rows : list Row }.

Definition columns (df : DataFrame) : list string := map fst (schema df).

Definition dtype_at (df : DataFrame) (j : nat) : dtype :=
  snd (nth j (schema df) (EmptyString, object)).

Definition cell (j : nat) (r : Row) : value := nth j (cells r) VNaN.

(** [df[column]] for the numeric column at position [j]. *)
Definition getitem (df : DataFrame) (j : nat) : list float :=
  map (fun r => to_float (cell j r)) (rows df).

(** [df[mask]]: the rows whose entry in the boolean series is True. *)
Fixpoint select (mask : list bool) (rs : list Row) : list Row :=
  match mask, rs with
  | b :: mask', r :: rs' => if b then r :: select mask' rs' else select mask' rs'
  | _, _ => []
  end.

Definition boolean_index (df : DataFrame) (mask : list bool) : DataFrame :=
  {| schema := schema df; rows := select mask (rows df) |}.

Definition copy (df : DataFrame) : DataFrame :=
  {| schema := schema df; rows := rows df |}.

(** The row handed out by [iterrows]: a series named by the row's index
    label, indexed by the column labels, holding the row's values. *)
Record RowSeries := { name : Z; index : list string; values : list value }.

Definition iterrows (df : DataFrame) : list (Z * RowSeries) :=
  map (fun r => (label r, {| name := label r; index := columns df; values := cells r |}))
      (rows df).

(** [row[column]] for the column at position [j]. *)
Definition row_getitem (j : nat) (row : RowSeries) : value :=
  nth j (values row) VNaN.

(** ** The world outside the function *)

(** A printed line [Outlier in row {index} for column '{column}': {value}],
    kept as its three fields. *)
Record Diagnostic := { diag_row : Z; diag_column : string; diag_value : value }.

(** A CSV file, kept as its header fields and its data records. *)
Record CsvFile := { header : list string; records : list (list value) }.

Record World := {
  heap : list DataFrame;
  stdout : list Diagnostic;
  files : string -> option CsvFile;
  writable : string -> bool
}.

Definition empty_frame : DataFrame := {| schema := []; rows := [] |}.

Definition deref (w : World) (a : nat) : DataFrame := nth a (heap w) empty_frame.

Definition alloc (df : DataFrame) (w : World) : nat * World :=
  (length (heap w),
   {| heap := heap w ++ [df]; stdout := stdout w;
      files := files w; writable := writable w |}).

Definition print (d : Diagnostic) (w : World) : World :=
  {| heap := heap w; stdout := stdout w ++ [d];
     files := files w; writable := writable w |}.

Inductive exn := AttributeError | OSError.

Inductive outcome := Returned (addr : nat) | Raised (e : exn).

Inductive pyvalue := PyNone | PyFrame (addr : nat).

(** [pd.DataFrame(outlier_rows)] followed by [to_csv(path, index=False)].
    The frame built from a list of series takes its columns from the
    index of the series (all of them carry the same index here) and one
    record per series; with no series at all it has no column.  The row
    names become the index of the frame, which [index=False] leaves out. *)
Definition DataFrame_of_rows (rs : list RowSeries) : CsvFile :=
  {| header := match rs with [] => [] | r :: _ => index r end;
     records := map values rs |}.

Definition to_csv (f : CsvFile) (path : string) (w : World) : option exn * World :=
  if writable w path then
    (None,
     {| heap := heap w; stdout := stdout w;
        files := fun p => if String.eqb p path then Some f else files w p;
        writable := writable w |})
  else (Some OSError, w).

(** ** The function *)

Record Locals := { cleaned_data : nat; outlier_rows : list RowSeries }.

(** Lines 75-77: print every outlier row and append it to the list. *)
Fixpoint report (j : nat) (column : string) (its : list (Z * RowSeries))
    (outlier_rows : list RowSeries) (w : World) : list RowSeries * World :=
  match its with
  | [] => (outlier_rows, w)
  | (index, row) :: its' =>
      let w' := print {| diag_row := index; diag_column := column;
                         diag_value := row_getitem j row |} w in
      report j column its' (outlier_rows ++ [row]) w'
  end.

Definition outlier_mask (lower_bound upper_bound : float) (s : list float) : list bool :=
  map (fun v => (v < lower_bound) || (v > upper_bound))%fl s.

(** Lines 59-80: the body of the loop for the column at position [j]. *)
Definition loop_body (j : nat) (column : string) (l : Locals) (w : World)
    : Locals * World :=
  let df := deref w (cleaned_data l) in
  if is_numeric_dtype (dtype_at df j) then
    let Q1 := quantile 0.25 (getitem df j) in
    let Q3 := quantile 0.75 (getitem df j) in
    let IQR := (Q3 - Q1)%fl in
    let lower_bound := (Q1 - Some 1.5 * IQR)%fl in
    let upper_bound := (Q3 + Some 1.5 * IQR)%fl in
    let mask := outlier_mask lower_bound upper_bound (getitem df j) in
    let '(outliers, w1) := alloc (boolean_index df mask) w in
    let '(outlier_rows', w2) :=
      report j column (iterrows (deref w1 outliers)) (outlier_rows l) w1 in
    let '(cleaned_data', w3) := alloc (boolean_index df (map negb mask)) w2 in
    ({| cleaned_data := cleaned_data'; outlier_rows := outlier_rows' |}, w3)
  else (l, w).

(** Line 58: the loop over [cleaned_data.columns], read once before the
    first iteration; [j] is the position of the head of [cols]. *)
Fixpoint for_columns (j : nat) (cols : list string) (l : Locals) (w : World)
    : Locals * World :=
  match cols with
  | [] => (l, w)
  | column :: cols' =>
      let '(l', w') := loop_body j column l w in
      for_columns (S j) cols' l' w'
  end.

Definition clean_outliers (data : pyvalue) (outliers_csv : string) (w : World)
    : outcome * World :=
  match data with
  | PyNone => (Raised AttributeError, w)
  | PyFrame a =>
      let '(copied, w1) := alloc (copy (deref w a)) w in
      let '(l, w2) :=
        for_columns 0 (columns (deref w1 copied))
                    {| cleaned_data := copied; outlier_rows := [] |} w1 in
      let outliers_df := DataFrame_of_rows (outlier_rows l) in
      match to_csv outliers_df outliers_csv w2 with
      | (Some e, w3) => (Raised e, w3)
      | (None, w3) => (Returned (cleaned_data l), w3)
      end
  end.

(** * Notions used in the statements *)

(** ** What one pass of the loop computes

    Lines 61-69 as a function of the column, the test of lines 72 and 80
    as a function of the row, and the two selections they make. *)

Definition bounds (s : list float) : float * float :=
  let Q1 := quantile 0.25 s in
  let Q3 := quantile 0.75 s in
  let IQR := (Q3 - Q1)%fl in
  ((Q1 - Some 1.5 * IQR)%fl, (Q3 + Some 1.5 * IQR)%fl).

Definition is_outlier (j : nat) (b : float * float) (r : Row) : bool :=
  ((to_float (cell j r) < fst b) || (to_float (cell j r) > snd b))%fl.

(** The rows a numeric column flags, and the rows it leaves. *)
Definition flagged (j : nat) (rs : list Row) : list Row :=
  filter (is_outlier j (bounds (map (fun r => to_float (cell j r)) rs))) rs.

Definition retained (j : nat) (rs : list Row) : list Row :=
  filter (fun r => negb (is_outlier j (bounds (map (fun r => to_float (cell j r)) rs)) r)) rs.

Definition as_series (cols : list string) (r : Row) : RowSeries :=
  {| name := label r; index := cols; values := cells r |}.

Definition as_diagnostic (j : nat) (column : string) (r : Row) : Diagnostic :=
  {| diag_row := label r; diag_column := column; diag_value := cell j r |}.

(** ** The whole loop as a fold over the rows

    [sweep] threads the rows through the columns; next to the rows left it
    returns what was collected, each entry with the position and label of
    the column that flagged it. *)

Fixpoint sweep (sch : list (string * dtype)) (j : nat) (cols : list string)
    (rs : list Row) : list (nat * string * Row) * list Row :=
  match cols with
  | [] => ([], rs)
  | column :: cols' =>
      if is_numeric_dtype (snd (nth j sch (EmptyString, object))) then
        let '(out, kept) := sweep sch (S j) cols' (retained j rs) in
        (map (fun r => (j, column, r)) (flagged j rs) ++ out, kept)
      else sweep sch (S j) cols' rs
  end.

Definition entry_row (e : nat * string * Row) : Row := snd e.

Definition entry_diagnostic (e : nat * string * Row) : Diagnostic :=
  as_diagnostic (fst (fst e)) (snd (fst e)) (snd e).

Definition collected (df : DataFrame) : list (nat * string * Row) :=
  fst (sweep (schema df) 0 (columns df) (rows df)).

Definition kept_rows (df : DataFrame) : list Row :=
  snd (sweep (schema df) 0 (columns df) (rows df)).

Definition outliers_file (df : DataFrame) : CsvFile :=
  DataFrame_of_rows (map (fun e => as_series (columns df) (entry_row e)) (collected df)).

(** ** Order-preserving selections *)

Inductive subseq (A : Type) : list A -> list A -> Prop :=
| subseq_nil : subseq [] []
| subseq_skip : forall x l1 l2, subseq l1 l2 -> subseq l1 (x :: l2)
| subseq_keep : forall x l1 l2, subseq l1 l2 -> subseq (x :: l1) (x :: l2).

#[local] Hint Constructors subseq : core.

(** ** The percentile and the bounds, as the specification words them *)

(** For percentile [p] over [n] sorted values the rank is [p*(n-1)], and
    the value is interpolated between the floor and ceil ranks. *)
Definition spec_percentile (p : Q) (sorted : list Q) : option Q :=
  match sorted with
  | [] => None
  | x0 :: _ =>
      let rank := p * (inject_Z (Z.of_nat (length sorted)) - 1) in
      let lo := nth (Z.to_nat (Qfloor rank)) sorted x0 in
      let hi := nth (Z.to_nat (Qceiling rank)) sorted x0 in
      Some (lo + (hi - lo) * (rank - inject_Z (Qfloor rank)))
  end.

(** Equality and order of two numbers, NaN being related to NaN only. *)
Definition float_eq (x y : float) : Prop :=
  match x, y with
  | Some a, Some b => a == b
  | None, None => True
  | _, _ => False
  end.

Definition float_le (x y : float) : Prop :=
  match x, y with
  | Some a, Some b => a <= b
  | None, None => True
  | _, _ => False
  end.

(** A value is outside the bounds [Q1 - 1.5*IQR] and [Q3 + 1.5*IQR], with
    the quartiles taken from the sorted values by [spec_percentile]. *)
Definition spec_outlier (sorted : list Q) (v : float) : Prop :=
  exists x q1 q3,
    v = Some x /\
    spec_percentile 0.25 sorted = Some q1 /\
    spec_percentile 0.75 sorted = Some q3 /\
    (x < q1 - 1.5 * (q3 - q1) \/ q3 + 1.5 * (q3 - q1) < x).

(** The frames the embedding stands for: the column labels are pairwise
    distinct, so [df[column]] is one column, and every column is int64,
    float64 or of a dtype that [is_numeric_dtype] rejects.  Columns of dtype
    bool or complex and the nullable extension dtypes are numeric for
    pandas and are not among them. *)
Definition plain_frame (df : DataFrame) : Prop :=
  NoDup (columns df) /\
  Forall (fun d => d = int64 \/ d = float64 \/ is_numeric_dtype d = false)
         (map snd (schema df)).

(** The finite values of float64: [m * 2^e] with [m] of at most 53 bits
    and [e] from -1074 to 971.  On such values, and on the integers among
    them, the numbers of the embedding are the numbers of the program. *)
Definition binary64 (x : Q) : Prop :=
  exists m e : Z,
    (Z.abs m < 2 ^ 53)%Z /\ (-1074 <= e <= 971)%Z /\ x == inject_Z m * 2 ^ e.

(** ** Sample frames and runs *)

Definition row_of (i : Z) (vs : list Z) : Row :=
  {| label := i; cells := map (fun v => VNum (inject_Z v)) vs |}.

(** Column A of the docstring example. *)
Definition frame_A : DataFrame :=
  {| schema := [("A"%string, int64)];
     rows := [row_of 0 [1%Z]; row_of 1 [2%Z]; row_of 2 [3%Z]; row_of 3 [1000%Z]] |}.

(** A world holding the given frames, with nothing printed, no file, and
    every path writable. *)
Definition world0 (dfs : list DataFrame) : World :=
  {| heap := dfs; stdout := []; files := fun _ => None; writable := fun _ => true |}.

Definition docstring_A_locals : Locals := {| cleaned_data := 0; outlier_rows := [] |}.

Definition docstring_run : outcome * World :=
  clean_outliers (PyFrame 0) "outliers.csv" (world0 [frame_A]).



(** A frame whose only column holds strings. *)
Definition frame_names : DataFrame :=
  {| schema := [("name"%string, object)];
     rows := [ {| label := 0; cells := [VStr "ada"] |};
               {| label := 1; cells := [VStr "bob"] |} ] |}.

(** A column with two equal values and one different. *)
Definition frame_557 : DataFrame :=
  {| schema := [("A"%string, int64)];
     rows := [row_of 0 [5%Z]; row_of 1 [5%Z]; row_of 2 [7%Z]] |}.

Definition run_557 : outcome * World :=
  clean_outliers (PyFrame 0) "outliers.csv" (world0 [frame_557]).

(** The frame of the docstring example, both columns. *)
Definition frame_AB : DataFrame :=
  {| schema := [("A"%string, int64); ("B"%string, int64)];
     rows := [row_of 0 [1%Z; 4%Z]; row_of 1 [2%Z; 5%Z]; row_of 2 [3%Z; 6%Z];
              row_of 3 [1000%Z; (-999)%Z]] |}.

Definition run_AB : outcome * World :=
  clean_outliers (PyFrame 0) "outliers.csv" (world0 [frame_AB]).

(** A column with five equal values and one different. *)
Definition frame_555557 : DataFrame :=
  {| schema := [("A"%string, int64)];
     rows := [row_of 0 [5%Z]; row_of 1 [5%Z]; row_of 2 [5%Z]; row_of 3 [5%Z];
              row_of 4 [5%Z]; row_of 5 [7%Z]] |}.


(** The same world with every path accepted for writing. *)
Definition all_writable (w : World) : World :=
  {| heap := heap w; stdout := stdout w; files := files w; writable := fun _ => true |}.

(** A float column with a missing value. *)
Definition frame_nan : DataFrame :=
  {| schema := [("A"%string, float64)];
     rows := [row_of 0 [1%Z]; {| label := 1; cells := [VNaN] |}; row_of 2 [2%Z];
              row_of 3 [3%Z]; row_of 4 [1000%Z]] |}.

(** A float column in which every value is missing. *)
Definition frame_all_nan : DataFrame :=
  {| schema := [("A"%string, float64)];
     rows := [ {| label := 0; cells := [VNaN] |}; {| label := 1; cells := [VNaN] |} ] |}.

Definition run_nan : outcome * World :=
  clean_outliers (PyFrame 0) "outliers.csv" (world0 [frame_nan]).

(** The same world with every path refused for writing. *)
Definition read_only (w : World) : World :=
  {| heap := heap w; stdout := stdout w; files := files w; writable := fun _ => false |}.

(** A frame with a numeric column and no row. *)
Definition frame_empty : DataFrame :=
  {| schema := [("A"%string, float64)]; rows := [] |}.

(** Column A of the docstring example with its rows in reverse order. *)
Definition frame_A_reversed : DataFrame :=
  {| schema := schema frame_A; rows := rev (rows frame_A) |}.

(** * Lemmas *)

Lemma select_map (f : Row -> bool) (rs : list Row) :
  select (map f rs) rs = filter f rs.
Proof.
  induction rs as [|r rs IH]; simpl; [reflexivity|].
  destruct (f r); rewrite IH; reflexivity.
Qed.

Lemma select_map_negb (f : Row -> bool) (rs : list Row) :
  select (map negb (map f rs)) rs = filter (fun r => negb (f r)) rs.
Proof. rewrite map_map. apply select_map. Qed.

Lemma deref_alloc_new (df : DataFrame) (w : World) :
  deref (snd (alloc df w)) (fst (alloc df w)) = df.
Proof. unfold deref, alloc; simpl. apply nth_middle. Qed.

Lemma deref_app_old (w : World) (a : nat) (more : list DataFrame) (w' : World) :
  heap w' = heap w ++ more -> (a < length (heap w))%nat -> deref w' a = deref w a.
Proof. intros E H. unfold deref. rewrite E. apply app_nth1. exact H. Qed.

Lemma report_spec (j : nat) (column : string) (cols : list string) (rs : list Row) :
  forall (acc : list RowSeries) (w : World),
    report j column (map (fun r => (label r, as_series cols r)) rs) acc w =
    (acc ++ map (as_series cols) rs,
     {| heap := heap w; stdout := stdout w ++ map (as_diagnostic j column) rs;
        files := files w; writable := writable w |}).
Proof.
  induction rs as [|r rs IH]; intros acc w; simpl.
  - rewrite !app_nil_r. destruct w; reflexivity.
  - rewrite IH. simpl. rewrite <- !app_assoc. reflexivity.
Qed.

Lemma boolean_index_flagged (df : DataFrame) (j : nat) :
  boolean_index df
    (outlier_mask (fst (bounds (getitem df j))) (snd (bounds (getitem df j))) (getitem df j)) =
  {| schema := schema df; rows := flagged j (rows df) |}.
Proof.
  unfold boolean_index, outlier_mask, getitem, flagged. rewrite map_map.
  f_equal. apply (select_map (is_outlier j _)).
Qed.

Lemma boolean_index_retained (df : DataFrame) (j : nat) :
  boolean_index df
    (map negb (outlier_mask (fst (bounds (getitem df j))) (snd (bounds (getitem df j)))
                            (getitem df j))) =
  {| schema := schema df; rows := retained j (rows df) |}.
Proof.
  unfold boolean_index, outlier_mask, getitem, retained. rewrite !map_map.
  f_equal. apply (select_map (fun r => negb (is_outlier j _ r))).
Qed.

Lemma nth_app_second (A : Type) (l : list A) (a b d : A) :
  nth (S (length l)) (l ++ [a; b]) d = b.
Proof.
  rewrite app_nth2 by lia.
  replace (S (length l) - length l)%nat with 1%nat by lia. reflexivity.
Qed.

(** The pass for a numeric column, in closed form. *)
Lemma loop_body_numeric (j : nat) (column : string) (l : Locals) (w : World) :
  is_numeric_dtype (dtype_at (deref w (cleaned_data l)) j) = true ->
  let df := deref w (cleaned_data l) in
  loop_body j column l w =
  ({| cleaned_data := S (length (heap w));
      outlier_rows := outlier_rows l ++ map (as_series (columns df)) (flagged j (rows df)) |},
   {| heap := heap w ++ [ {| schema := schema df; rows := flagged j (rows df) |};
                          {| schema := schema df; rows := retained j (rows df) |} ];
      stdout := stdout w ++ map (as_diagnostic j column) (flagged j (rows df));
      files := files w; writable := writable w |}).
Proof.
  intros Hnum df. unfold loop_body. rewrite Hnum. fold df.
  pose proof (boolean_index_flagged df j) as Hf.
  pose proof (boolean_index_retained df j) as Hr.
  cbv beta iota zeta delta [bounds fst snd] in Hf, Hr.
  rewrite Hf, Hr. clear Hf Hr.
  unfold alloc at 1. unfold deref at 1. simpl heap. rewrite nth_middle.
  unfold iterrows. simpl rows. simpl columns.
  change (map (fun r : Row => (label r, {| name := label r; index := ?c; values := cells r |})))
    with (map (fun r : Row => (label r, as_series c r))).
  rewrite report_spec. unfold alloc. simpl.
  rewrite length_app, <- app_assoc. simpl.
  replace (length (heap w) + 1)%nat with (S (length (heap w))) by lia.
  reflexivity.
Qed.

Lemma loop_body_skip (j : nat) (column : string) (l : Locals) (w : World) :
  is_numeric_dtype (dtype_at (deref w (cleaned_data l)) j) = false ->
  loop_body j column l w = (l, w).
Proof. intros H. unfold loop_body. rewrite H. reflexivity. Qed.

Lemma for_columns_sweep (cols : list string) :
  forall (j : nat) (l : Locals) (w : World),
    let df := deref w (cleaned_data l) in
    let l' := fst (for_columns j cols l w) in
    let w' := snd (for_columns j cols l w) in
    schema (deref w' (cleaned_data l')) = schema df /\
    rows (deref w' (cleaned_data l')) = snd (sweep (schema df) j cols (rows df)) /\
    outlier_rows l' =
      outlier_rows l ++
      map (fun e => as_series (columns df) (entry_row e))
          (fst (sweep (schema df) j cols (rows df))) /\
    stdout w' =
      stdout w ++ map entry_diagnostic (fst (sweep (schema df) j cols (rows df))) /\
    files w' = files w /\ writable w' = writable w /\
    exists more, heap w' = heap w ++ more.
Proof.
  induction cols as [|column cols IH]; intros j l w df l' w'.
  - subst l' w'. simpl. rewrite !app_nil_r.
    repeat split; try reflexivity. exists []. rewrite app_nil_r. reflexivity.
  - subst l' w'. simpl for_columns. simpl sweep.
    destruct (is_numeric_dtype (snd (nth j (schema df) (EmptyString, object)))) eqn:Hnum.
    + rewrite (loop_body_numeric j column l w Hnum). fold df.
      match goal with |- context [for_columns (S j) cols ?l1 ?w1] =>
        specialize (IH (S j) l1 w1); set (L1 := l1) in *; set (W1 := w1) in * end.
      assert (Hd : deref W1 (cleaned_data L1) =
                   {| schema := schema df; rows := retained j (rows df) |}).
      { subst L1 W1. unfold deref. simpl. apply nth_app_second. }
      cbv zeta in IH. rewrite Hd in IH. simpl schema in IH. simpl rows in IH.
      destruct (sweep (schema df) (S j) cols (retained j (rows df))) as [out kept] eqn:Hs.
      destruct IH as (I1 & I2 & I3 & I4 & I5 & I6 & more & I7).
      simpl fst in *. simpl snd in *.
      repeat split; try assumption.
      * rewrite I3. subst L1. simpl outlier_rows. rewrite <- app_assoc.
        rewrite map_app, map_map. reflexivity.
      * rewrite I4. subst W1. simpl stdout. rewrite <- app_assoc.
        rewrite map_app, map_map. reflexivity.
      * eexists. rewrite I7. subst W1. simpl heap. rewrite <- app_assoc. reflexivity.
    + rewrite (loop_body_skip j column l w Hnum). apply IH.
Qed.

(** ** Subsequences *)

Lemma subseq_refl (A : Type) (l : list A) : subseq l l.
Proof. induction l; auto. Qed.

Lemma subseq_trans (A : Type) (l1 l2 l3 : list A) :
  subseq l1 l2 -> subseq l2 l3 -> subseq l1 l3.
Proof.
  intros H12 H23. revert l1 H12.
  induction H23 as [|x l2 l3 H IH|x l2 l3 H IH]; intros l1 H12.
  - exact H12.
  - auto.
  - inversion H12; subst; auto.
Qed.

Lemma subseq_filter (A : Type) (f : A -> bool) (l : list A) : subseq (filter f l) l.
Proof. induction l as [|x l IH]; simpl; [auto|]. destruct (f x); auto. Qed.

Lemma subseq_In (A : Type) (l1 l2 : list A) (x : A) :
  subseq l1 l2 -> In x l1 -> In x l2.
Proof.
  induction 1 as [|y l1 l2 H IH|y l1 l2 H IH]; simpl; intros Hin; auto.
  destruct Hin; auto.
Qed.

Lemma subseq_map (A B : Type) (g : A -> B) (l1 l2 : list A) :
  subseq l1 l2 -> subseq (map g l1) (map g l2).
Proof. induction 1; simpl; auto. Qed.

Lemma subseq_NoDup (A : Type) (l1 l2 : list A) :
  subseq l1 l2 -> NoDup l2 -> NoDup l1.
Proof.
  induction 1 as [|y l1 l2 H IH|y l1 l2 H IH]; intros Hnd; auto.
  - inversion Hnd; auto.
  - inversion Hnd as [|? ? Hnotin Hnd']; subst. constructor; auto.
    intros Hin. apply Hnotin. eapply subseq_In; eauto.
Qed.

Lemma filter_split_perm (A : Type) (f : A -> bool) (l : list A) :
  Permutation (filter f l ++ filter (fun x => negb (f x)) l) l.
Proof.
  induction l as [|x l IH]; simpl; [constructor|].
  destruct (f x); simpl.
  - constructor. exact IH.
  - apply Permutation_sym, Permutation_cons_app, Permutation_sym. exact IH.
Qed.

(** ** What the fold keeps and what it collects *)

Lemma flagged_retained_perm (j : nat) (rs : list Row) :
  Permutation (flagged j rs ++ retained j rs) rs.
Proof. apply (filter_split_perm (is_outlier j _)). Qed.

Lemma sweep_kept_subseq (sch : list (string * dtype)) (cols : list string) :
  forall (j : nat) (rs : list Row), subseq (snd (sweep sch j cols rs)) rs.
Proof.
  induction cols as [|column cols IH]; intros j rs; simpl.
  - apply subseq_refl.
  - destruct (is_numeric_dtype _).
    + specialize (IH (S j) (retained j rs)).
      destruct (sweep sch (S j) cols (retained j rs)) as [out kept]. simpl in *.
      eapply subseq_trans; [exact IH|]. apply subseq_filter.
    + apply IH.
Qed.

Lemma sweep_partition (sch : list (string * dtype)) (cols : list string) :
  forall (j : nat) (rs : list Row),
    Permutation (map entry_row (fst (sweep sch j cols rs)) ++ snd (sweep sch j cols rs)) rs.
Proof.
  induction cols as [|column cols IH]; intros j rs; simpl.
  - apply Permutation_refl.
  - destruct (is_numeric_dtype _).
    + specialize (IH (S j) (retained j rs)).
      destruct (sweep sch (S j) cols (retained j rs)) as [out kept]. simpl in *.
      rewrite map_app, map_map. simpl. rewrite map_id, <- app_assoc.
      eapply Permutation_trans; [|apply flagged_retained_perm].
      apply Permutation_app_head. exact IH.
    + apply IH.
Qed.

Lemma is_outlier_cells (j : nat) (b : float * float) (r r' : Row) :
  cells r = cells r' -> is_outlier j b r = is_outlier j b r'.
Proof. intros E. unfold is_outlier, cell. rewrite E. reflexivity. Qed.

(** A kept row and a collected row never hold the same values. *)
Lemma sweep_disjoint (sch : list (string * dtype)) (cols : list string) :
  forall (j : nat) (rs : list Row) (r : Row),
    In r (snd (sweep sch j cols rs)) ->
    ~ In (cells r) (map cells (map entry_row (fst (sweep sch j cols rs)))).
Proof.
  induction cols as [|column cols IH]; intros j rs r; simpl.
  - intros _ [].
  - destruct (is_numeric_dtype _).
    + specialize (IH (S j) (retained j rs) r).
      pose proof (sweep_kept_subseq sch cols (S j) (retained j rs)) as Hsub.
      destruct (sweep sch (S j) cols (retained j rs)) as [out kept]. simpl in *.
      intros Hk Ho. rewrite map_app, map_map in Ho. simpl in Ho. rewrite map_id in Ho.
      rewrite map_app in Ho.
      apply in_app_or in Ho. destruct Ho as [Ho|Ho].
      * apply (subseq_In r Hsub) in Hk.
        apply in_map_iff in Ho. destruct Ho as (r' & E & Ho).
        unfold retained in Hk. unfold flagged in Ho.
        apply filter_In in Hk. apply filter_In in Ho.
        destruct Hk as [_ Hk]. destruct Ho as [_ Ho].
        rewrite (is_outlier_cells j _ r' r E) in Ho.
        rewrite Ho in Hk. discriminate.
      * exact (IH Hk Ho).
    + apply IH.
Qed.


Lemma sweep_no_numeric (sch : list (string * dtype)) (cols : list string) :
  (forall j, is_numeric_dtype (snd (nth j sch (EmptyString, object))) = false) ->
  forall (j : nat) (rs : list Row), sweep sch j cols rs = ([], rs).
Proof.
  intros Hobj. induction cols as [|column cols IH]; intros j rs; simpl.
  - reflexivity.
  - rewrite Hobj. apply IH.
Qed.

Lemma frame_eq (d1 d2 : DataFrame) :
  schema d1 = schema d2 -> rows d1 = rows d2 -> d1 = d2.
Proof. destruct d1, d2; simpl; intros -> ->; reflexivity. Qed.

(** ** The call as a whole *)

Lemma clean_outliers_run (a : nat) (outliers_csv : string) (w : World) :
  let df := deref w a in
  exists (l : Locals) (w2 : World),
    clean_outliers (PyFrame a) outliers_csv w =
      match to_csv (outliers_file df) outliers_csv w2 with
      | (Some e, w3) => (Raised e, w3)
      | (None, w3) => (Returned (cleaned_data l), w3)
      end /\
    schema (deref w2 (cleaned_data l)) = schema df /\
    rows (deref w2 (cleaned_data l)) = kept_rows df /\
    stdout w2 = stdout w ++ map entry_diagnostic (collected df) /\
    files w2 = files w /\ writable w2 = writable w /\
    exists more, heap w2 = heap w ++ more.
Proof.
  intros df. unfold clean_outliers.
  destruct (alloc (copy (deref w a)) w) as [copied w1] eqn:Ha.
  assert (Hd : deref w1 copied = copy df).
  { pose proof (deref_alloc_new (copy (deref w a)) w) as H. rewrite Ha in H. exact H. }
  rewrite Hd.
  pose proof (for_columns_sweep (columns (copy df)) 0
                {| cleaned_data := copied; outlier_rows := [] |} w1) as H.
  cbv zeta in H. cbn [cleaned_data outlier_rows app] in H. rewrite !Hd in H.
  destruct (for_columns 0 (columns (copy df))
              {| cleaned_data := copied; outlier_rows := [] |} w1) as [l w2].
  simpl fst in H. simpl snd in H.
  change (columns (copy df)) with (columns df) in *.
  change (schema (copy df)) with (schema df) in *.
  change (rows (copy df)) with (rows df) in *.
  destruct H as (H1 & H2 & H3 & H4 & H5 & H6 & more & H7).
  exists l, w2.
  assert (Hw1 : heap w1 = heap w ++ [copy df] /\ stdout w1 = stdout w /\
                files w1 = files w /\ writable w1 = writable w).
  { unfold alloc in Ha. inversion Ha; subst. simpl. auto. }
  destruct Hw1 as (E1 & E2 & E3 & E4).
  repeat split.
  - rewrite H3. reflexivity.
  - exact H1.
  - exact H2.
  - rewrite H4, E2. reflexivity.
  - rewrite H5. exact E3.
  - rewrite H6. exact E4.
  - eexists. rewrite H7, E1, <- app_assoc. reflexivity.
Qed.

Lemma clean_outliers_returned (a : nat) (outliers_csv : string) (w w' : World) (a' : nat) :
  clean_outliers (PyFrame a) outliers_csv w = (Returned a', w') ->
  let df := deref w a in
  writable w outliers_csv = true /\
  schema (deref w' a') = schema df /\
  rows (deref w' a') = kept_rows df /\
  stdout w' = stdout w ++ map entry_diagnostic (collected df) /\
  files w' outliers_csv = Some (outliers_file df) /\
  (forall p, p <> outliers_csv -> files w' p = files w p) /\
  exists more, heap w' = heap w ++ more.
Proof.
  intros Hrun df.
  destruct (clean_outliers_run a outliers_csv w)
    as (l & w2 & E & H1 & H2 & H3 & H4 & H5 & more & H6).
  fold df in E, H1, H2, H3. rewrite E in Hrun. clear E.
  unfold to_csv in Hrun. rewrite H5 in Hrun.
  destruct (writable w outliers_csv); [|discriminate].
  inversion Hrun; subst a' w'; clear Hrun.
  unfold deref in *. simpl.
  repeat split; try assumption.
  - rewrite String.eqb_refl. reflexivity.
  - intros p Hp. apply String.eqb_neq in Hp. rewrite Hp, H4. reflexivity.
  - exists more. exact H6.
Qed.

Lemma clean_outliers_completes (a : nat) (outliers_csv : string) (w : World) :
  writable w outliers_csv = true ->
  exists a' w', clean_outliers (PyFrame a) outliers_csv w = (Returned a', w').
Proof.
  intros Hw.
  destruct (clean_outliers_run a outliers_csv w)
    as (l & w2 & E & _ & _ & _ & _ & H5 & _).
  rewrite E. unfold to_csv. rewrite H5, Hw. eauto.
Qed.

Lemma outliers_file_records (df : DataFrame) :
  records (outliers_file df) = map cells (map entry_row (collected df)).
Proof.
  unfold outliers_file, DataFrame_of_rows. simpl. rewrite !map_map. reflexivity.
Qed.


(** ** Sorting *)

Lemma Qlt_bool_iff (a b : Q) : Qlt_bool a b = true <-> a < b.
Proof.
  unfold Qlt_bool. rewrite negb_true_iff. split.
  - intros H. apply Qnot_le_lt. intros Hle. apply Qle_bool_iff in Hle. congruence.
  - intros H. destruct (Qle_bool b a) eqn:E; [|reflexivity].
    apply Qle_bool_iff in E. exfalso. exact (Qlt_not_le _ _ H E).
Qed.

Lemma insert_perm (x : Q) (l : list Q) : Permutation (insert x l) (x :: l).
Proof.
  induction l as [|y l IH]; simpl; [apply Permutation_refl|].
  destruct (Qle_bool x y); [apply Permutation_refl|].
  eapply Permutation_trans; [apply perm_skip, IH|apply perm_swap].
Qed.

Lemma sort_perm (l : list Q) : Permutation (sort l) l.
Proof.
  induction l as [|x l IH]; simpl; [constructor|].
  eapply Permutation_trans; [apply insert_perm|]. constructor. exact IH.
Qed.

Lemma sort_length (l : list Q) : length (sort l) = length l.
Proof. apply Permutation_length, sort_perm. Qed.

Lemma Qle_total_bool (x y : Q) : Qle_bool x y = false -> y <= x.
Proof.
  intros H. apply Qlt_le_weak, Qnot_le_lt. intros Hle.
  apply Qle_bool_iff in Hle. congruence.
Qed.

Lemma insert_sorted (x : Q) (l : list Q) :
  StronglySorted Qle l -> StronglySorted Qle (insert x l).
Proof.
  induction 1 as [|y l Hs IH Hall]; simpl.
  - constructor; constructor.
  - destruct (Qle_bool x y) eqn:E.
    + apply Qle_bool_iff in E. constructor.
      * constructor; assumption.
      * constructor; [exact E|].
        eapply Forall_impl; [|exact Hall]. intros z Hz. eapply Qle_trans; eassumption.
    + apply Qle_total_bool in E. constructor; [exact IH|].
      eapply Permutation_Forall; [apply Permutation_sym, insert_perm|].
      constructor; assumption.
Qed.

Lemma sort_sorted (l : list Q) : StronglySorted Qle (sort l).
Proof.
  induction l as [|x l IH]; simpl; [constructor|]. apply insert_sorted, IH.
Qed.

Lemma sorted_nth_le (l : list Q) (d : Q) :
  StronglySorted Qle l ->
  forall i k, (i <= k)%nat -> (k < length l)%nat -> nth i l d <= nth k l d.
Proof.
  induction 1 as [|y l Hs IH Hall]; intros i k Hik Hk; simpl in Hk; [lia|].
  destruct i as [|i], k as [|k]; simpl; try lia.
  - apply Qle_refl.
  - rewrite Forall_forall in Hall. apply Hall, nth_In. lia.
  - apply IH; lia.
Qed.

(** Two sorted arrangements of the same values agree entry by entry, up to
    the equality of rationals. *)

Lemma Forall2_Qeq_refl (l : list Q) : Forall2 Qeq l l.
Proof. induction l; constructor; [apply Qeq_refl|assumption]. Qed.

Lemma Forall2_Qeq_sym (l1 l2 : list Q) : Forall2 Qeq l1 l2 -> Forall2 Qeq l2 l1.
Proof. induction 1; constructor; [apply Qeq_sym|]; assumption. Qed.

Lemma Forall2_Qeq_trans (l1 l2 l3 : list Q) :
  Forall2 Qeq l1 l2 -> Forall2 Qeq l2 l3 -> Forall2 Qeq l1 l3.
Proof.
  intros H. revert l3. induction H as [|x y l1 l2 Hxy H IH]; intros l3 H3.
  - exact H3.
  - inversion H3; subst. constructor; [eapply Qeq_trans; eassumption|auto].
Qed.

Lemma insert_Qeq (x y : Q) (l1 l2 : list Q) :
  x == y -> Forall2 Qeq l1 l2 -> Forall2 Qeq (insert x l1) (insert y l2).
Proof.
  intros Hxy H. induction H as [|a b l1 l2 Hab H IH]; simpl.
  - constructor; [exact Hxy|constructor].
  - rewrite (Qleb_comp x y Hxy a b Hab).
    destruct (Qle_bool y b); repeat constructor; assumption.
Qed.

Lemma insert_insert (x y : Q) (l : list Q) :
  Forall2 Qeq (insert x (insert y l)) (insert y (insert x l)).
Proof.
  induction l as [|z l IH]; simpl.
  - destruct (Qle_bool x y) eqn:Exy, (Qle_bool y x) eqn:Eyx.
    + apply Qle_bool_iff in Exy, Eyx.
      repeat constructor; apply Qle_antisym; assumption.
    + apply Forall2_Qeq_refl.
    + apply Forall2_Qeq_refl.
    + apply Qle_total_bool in Exy, Eyx.
      repeat constructor; apply Qle_antisym; assumption.
  - destruct (Qle_bool y z) eqn:Eyz, (Qle_bool x z) eqn:Exz; simpl;
      rewrite ?Eyz, ?Exz.
    + destruct (Qle_bool x y) eqn:Exy, (Qle_bool y x) eqn:Eyx; simpl;
        rewrite ?Eyz, ?Exz; try apply Forall2_Qeq_refl.
      * apply Qle_bool_iff in Exy, Eyx.
        constructor; [apply Qle_antisym; assumption|].
        constructor; [apply Qle_antisym; assumption|apply Forall2_Qeq_refl].
      * apply Qle_total_bool in Exy, Eyx.
        constructor; [apply Qle_antisym; assumption|].
        constructor; [apply Qle_antisym; assumption|apply Forall2_Qeq_refl].
    + destruct (Qle_bool x y) eqn:Exy; simpl; rewrite ?Exz.
      * exfalso. apply Qle_bool_iff in Exy, Eyz.
        assert (H : Qle_bool x z = true) by (apply Qle_bool_iff; eapply Qle_trans; eassumption).
        congruence.
      * apply Forall2_Qeq_refl.
    + destruct (Qle_bool y x) eqn:Eyx; simpl; rewrite ?Eyz.
      * exfalso. apply Qle_bool_iff in Eyx, Exz.
        assert (H : Qle_bool y z = true) by (apply Qle_bool_iff; eapply Qle_trans; eassumption).
        congruence.
      * apply Forall2_Qeq_refl.
    + constructor; [apply Qeq_refl|exact IH].
Qed.

Lemma sort_perm_Qeq (l1 l2 : list Q) :
  Permutation l1 l2 -> Forall2 Qeq (sort l1) (sort l2).
Proof.
  induction 1 as [|x l1 l2 H IH|x y l|l1 l2 l3 H12 IH12 H23 IH23]; simpl.
  - constructor.
  - apply insert_Qeq; [apply Qeq_refl|exact IH].
  - apply insert_insert.
  - eapply Forall2_Qeq_trans; eassumption.
Qed.

Lemma sort_sorted_id (l : list Q) : StronglySorted Qle l -> sort l = l.
Proof.
  induction 1 as [|x l Hs IH Hall]; simpl; [reflexivity|].
  rewrite IH. destruct l as [|y l]; simpl; [reflexivity|].
  inversion Hall as [|? ? Hxy _]; subst.
  apply Qle_bool_iff in Hxy. rewrite Hxy. reflexivity.
Qed.

Lemma sorted_arrangement_unique (a l : list Q) :
  Sorted Qle a -> Permutation a l -> Forall2 Qeq (sort l) a.
Proof.
  intros Hs Hp.
  assert (Hss : StronglySorted Qle a).
  { apply Sorted_StronglySorted; [|exact Hs]. intros x y z. apply Qle_trans. }
  rewrite <- (sort_sorted_id Hss). apply sort_perm_Qeq, Permutation_sym, Hp.
Qed.

(** ** The percentile, as the specification words it *)

Lemma virtual_index_succ (q : Q) (m : nat) :
  virtual_index q (S m) == q * inject_Z (Z.of_nat m).
Proof.
  unfold virtual_index. rewrite Nat2Z.inj_succ. unfold Z.succ.
  rewrite inject_Z_plus. ring.
Qed.

Lemma virtual_index_range (q : Q) (m : nat) :
  0 <= q -> q <= 1 ->
  0 <= virtual_index q (S m) /\ virtual_index q (S m) <= inject_Z (Z.of_nat m).
Proof.
  intros H0 H1. rewrite virtual_index_succ.
  assert (Hm : 0 <= inject_Z (Z.of_nat m)).
  { change 0 with (inject_Z 0). rewrite <- Zle_Qle. lia. }
  split.
  - apply Qmult_le_0_compat; assumption.
  - setoid_replace (inject_Z (Z.of_nat m)) with (1 * inject_Z (Z.of_nat m)) at 2 by ring.
    apply Qmult_le_compat_r; assumption.
Qed.

Lemma floor_ceiling_cases (x : Q) :
  (Qceiling x = Qfloor x /\ x == inject_Z (Qfloor x)) \/
  (Qceiling x = (Qfloor x + 1)%Z /\ inject_Z (Qfloor x) < x).
Proof.
  pose proof (Qfloor_le x) as Hf1. pose proof (Qlt_floor x) as Hf2.
  pose proof (Qle_ceiling x) as Hc1. pose proof (Qceiling_lt x) as Hc2.
  assert (H1 : (Qceiling x - 1 < Qfloor x + 1)%Z).
  { rewrite Zlt_Qlt. eapply Qlt_trans; eassumption. }
  assert (H2 : (Qfloor x <= Qceiling x)%Z).
  { rewrite Zle_Qle. eapply Qle_trans; eassumption. }
  destruct (Z.eq_dec (Qceiling x) (Qfloor x)) as [E|E].
  - left. split; [exact E|]. apply Qle_antisym; [|exact Hf1]. rewrite <- E. exact Hc1.
  - right. assert (E' : Qceiling x = (Qfloor x + 1)%Z) by lia.
    split; [exact E'|]. rewrite E' in Hc2.
    replace (Qfloor x + 1 - 1)%Z with (Qfloor x) in Hc2 by lia. exact Hc2.
Qed.

Lemma percentile_spec (q : Q) (arr : list Q) :
  0 <= q -> q <= 1 -> float_eq (percentile q arr) (spec_percentile q arr).
Proof.
  intros H0 H1. destruct arr as [|x0 tl]; [exact I|].
  unfold percentile, spec_percentile, float_eq.
  change (inject_Z (Z.of_nat (length (x0 :: tl))) - 1)
    with (inject_Z (Z.of_nat (S (length tl))) - 1).
  change (q * (inject_Z (Z.of_nat (S (length tl))) - 1))
    with (virtual_index q (S (length tl))).
  change (length (x0 :: tl)) with (S (length tl)).
  set (idx := virtual_index q (S (length tl))).
  destruct (virtual_index_range (length tl) H0 H1) as [Hi0 Hi1]. fold idx in Hi0, Hi1.
  assert (Hf0 : (0 <= Qfloor idx)%Z).
  { change 0%Z with (Qfloor 0). apply Qfloor_resp_le. exact Hi0. }
  rewrite (Z2Nat.id _ Hf0).
  cbv zeta.
  destruct (floor_ceiling_cases idx) as [[Ec Ex]|[Ec Hlt]].
  - rewrite Ec. unfold lerp.
    setoid_replace (idx - inject_Z (Qfloor idx)) with 0 by (rewrite <- Ex; ring).
    ring.
  - assert (Hn : (Qfloor idx + 1 <= Z.of_nat (length tl))%Z).
    { assert (H : (Qfloor idx < Z.of_nat (length tl))%Z).
      { rewrite Zlt_Qlt. eapply Qlt_le_trans; eassumption. }
      lia. }
    rewrite Ec.
    replace (Nat.min (Z.to_nat (Qfloor idx) + 1) (S (length tl) - 1))
      with (Z.to_nat (Qfloor idx + 1)) by lia.
    unfold lerp. apply Qeq_refl.
Qed.


Lemma float_eq_trans (x y z : float) : float_eq x y -> float_eq y z -> float_eq x z.
Proof. destruct x, y, z; simpl; try tauto. apply Qeq_trans. Qed.

Lemma Forall2_Qeq_nth (l1 l2 : list Q) :
  Forall2 Qeq l1 l2 -> forall (i : nat) (d1 d2 : Q), d1 == d2 -> nth i l1 d1 == nth i l2 d2.
Proof.
  induction 1 as [|x y l1 l2 Hxy H IH]; intros [|i] d1 d2 Hd; simpl; auto.
Qed.

Lemma spec_percentile_Qeq (p : Q) (l1 l2 : list Q) :
  Forall2 Qeq l1 l2 -> float_eq (spec_percentile p l1) (spec_percentile p l2).
Proof.
  intros H. pose proof (Forall2_length H) as Hlen.
  destruct H as [|x y l1 l2 Hxy H]; [exact I|].
  assert (H' : Forall2 Qeq (x :: l1) (y :: l2)) by (constructor; assumption).
  unfold spec_percentile, float_eq. rewrite Hlen. cbv zeta.
  set (rank := p * (inject_Z (Z.of_nat (length (y :: l2))) - 1)).
  rewrite (Forall2_Qeq_nth H' (Z.to_nat (Qfloor rank)) Hxy).
  rewrite (Forall2_Qeq_nth H' (Z.to_nat (Qceiling rank)) Hxy).
  apply Qeq_refl.
Qed.

(** pandas' quantile is the specification's percentile of any sorted
    arrangement of the values that are present. *)
Lemma quantile_spec (q : Q) (s : list float) (a : list Q) :
  0 <= q -> q <= 1 -> Sorted Qle a -> Permutation a (dropna s) ->
  float_eq (quantile q s) (spec_percentile q a).
Proof.
  intros H0 H1 Hs Hp. unfold quantile.
  eapply float_eq_trans; [apply percentile_spec; assumption|].
  apply spec_percentile_Qeq, sorted_arrangement_unique; assumption.
Qed.

Lemma outlier_test_spec (v Q1 Q3 : float) (q1s q3s : option Q) :
  float_eq Q1 q1s -> float_eq Q3 q3s ->
  ((v < Q1 - Some 1.5 * (Q3 - Q1)) || (v > Q3 + Some 1.5 * (Q3 - Q1)))%fl = true <->
  exists x q1 q3,
    v = Some x /\ q1s = Some q1 /\ q3s = Some q3 /\
    (x < q1 - 1.5 * (q3 - q1) \/ q3 + 1.5 * (q3 - q1) < x).
Proof.
  intros E1 E3.
  destruct v as [x|], Q1 as [a|], Q3 as [b|], q1s as [q1|], q3s as [q3|];
    simpl in E1, E3; try contradiction; simpl;
    try (split; [discriminate|intros (x' & a' & b' & H1 & H2 & H3 & _); discriminate]).
  rewrite orb_true_iff, !Qlt_bool_iff. split.
  - intros H. exists x, q1, q3. repeat split; try reflexivity.
    rewrite <- E1, <- E3. exact H.
  - intros (x' & a' & b' & H1 & H2 & H3 & H).
    inversion H1; inversion H2; inversion H3; subst.
    rewrite E1, E3. exact H.
Qed.

(** ** The test of one pass against the specification *)

Lemma is_outlier_spec (j : nat) (rs : list Row) (a : list Q) (r : Row) :
  Sorted Qle a ->
  Permutation a (dropna (map (fun r => to_float (cell j r)) rs)) ->
  is_outlier j (bounds (map (fun r => to_float (cell j r)) rs)) r = true <->
  spec_outlier a (to_float (cell j r)).
Proof.
  intros Hs Hp. unfold is_outlier, bounds, spec_outlier. cbv zeta. simpl fst. simpl snd.
  apply outlier_test_spec; apply quantile_spec; try assumption; lra.
Qed.



Lemma no_numeric_nth (sch : list (string * dtype)) :
  (forall c d, In (c, d) sch -> is_numeric_dtype d = false) ->
  forall j, is_numeric_dtype (snd (nth j sch (EmptyString, object))) = false.
Proof.
  intros H j. destruct (nth_in_or_default j sch (EmptyString, object)) as [Hin|E].
  - destruct (nth j sch (EmptyString, object)) as [c d]. exact (H c d Hin).
  - rewrite E. reflexivity.
Qed.

(** ** Missing values *)

Lemma is_outlier_present (j : nat) (b : float * float) (r : Row) :
  is_outlier j b r = true -> exists x, cell j r = VNum x.
Proof.
  unfold is_outlier, Float.gt, Float.lt.
  destruct (cell j r) as [x| |s]; simpl.
  - intros _. exists x. reflexivity.
  - destruct (fst b), (snd b); discriminate.
  - destruct (fst b), (snd b); discriminate.
Qed.

Lemma is_outlier_nan_bounds (j : nat) (r : Row) :
  is_outlier j (nan, nan) r = false.
Proof.
  unfold is_outlier, Float.gt, Float.lt. simpl.
  destruct (to_float (cell j r)); reflexivity.
Qed.

Lemma sweep_collected_present (sch : list (string * dtype)) (cols : list string) :
  forall (j : nat) (rs : list Row) (e : nat * string * Row),
    In e (fst (sweep sch j cols rs)) ->
    exists x, cell (fst (fst e)) (snd e) = VNum x.
Proof.
  induction cols as [|column cols IH]; intros j rs e; simpl.
  - intros [].
  - destruct (is_numeric_dtype _).
    + specialize (IH (S j) (retained j rs) e).
      destruct (sweep sch (S j) cols (retained j rs)) as [out kept]. simpl in *.
      intros H. apply in_app_or in H. destruct H as [H|H]; [|exact (IH H)].
      apply in_map_iff in H. destruct H as (r & E & Hr). subst e. simpl.
      unfold flagged in Hr. apply filter_In in Hr. destruct Hr as [_ Hr].
      exact (is_outlier_present _ _ _ Hr).
    + apply IH.
Qed.

Lemma quantile_none (q : Q) (s : list float) :
  dropna s = [] -> quantile q s = nan.
Proof. intros E. unfold quantile. rewrite E. reflexivity. Qed.

Lemma bounds_none (s : list float) : dropna s = [] -> bounds s = (nan, nan).
Proof. intros E. unfold bounds. rewrite !(quantile_none _ _ E). reflexivity. Qed.

Lemma filter_all (A : Type) (f : A -> bool) (l : list A) :
  (forall x, In x l -> f x = true) -> filter f l = l.
Proof.
  induction l as [|x l IH]; simpl; intros H; [reflexivity|].
  rewrite (H x (or_introl eq_refl)), IH; [reflexivity|]. intros y Hy. apply H. right. exact Hy.
Qed.

Lemma filter_none (A : Type) (f : A -> bool) (l : list A) :
  (forall x, In x l -> f x = false) -> filter f l = [].
Proof.
  induction l as [|x l IH]; simpl; intros H; [reflexivity|].
  rewrite (H x (or_introl eq_refl)), IH; [reflexivity|]. intros y Hy. apply H. right. exact Hy.
Qed.

(** ** Columns with (almost) no spread *)

Lemma nth_all_Qeq (l : list Q) (c : Q) (i : nat) (d0 : Q) :
  Forall (fun x => x == c) l -> (i < length l)%nat -> nth i l d0 == c.
Proof.
  intros Hall Hi. rewrite Forall_forall in Hall. apply Hall, nth_In, Hi.
Qed.

Lemma percentile_constant (q : Q) (arr : list Q) (c : Q) :
  0 <= q -> q <= 1 -> arr <> [] -> Forall (fun x => x == c) arr ->
  float_eq (percentile q arr) (Some c).
Proof.
  intros H0 H1 Hne Hall. destruct arr as [|x0 tl]; [congruence|].
  unfold percentile, float_eq.
  change (length (x0 :: tl)) with (S (length tl)).
  destruct (virtual_index_range (length tl) H0 H1) as [Hi0 Hi1].
  set (idx := virtual_index q (S (length tl))) in *.
  assert (Hf0 : (0 <= Qfloor idx)%Z).
  { change 0%Z with (Qfloor 0). apply Qfloor_resp_le. exact Hi0. }
  assert (Hfm : (Qfloor idx <= Z.of_nat (length tl))%Z).
  { rewrite <- (Qfloor_Z (Z.of_nat (length tl))). apply Qfloor_resp_le. exact Hi1. }
  cbv zeta. unfold lerp. clearbody idx.
  assert (Ea : nth (Z.to_nat (Qfloor idx)) (x0 :: tl) x0 == c).
  { apply nth_all_Qeq; [exact Hall|simpl; lia]. }
  assert (Eb : nth (Nat.min (Z.to_nat (Qfloor idx) + 1) (S (length tl) - 1)) (x0 :: tl) x0 == c).
  { apply nth_all_Qeq; [exact Hall|simpl; lia]. }
  rewrite Ea, Eb. ring.
Qed.

Lemma quantile_constant (q : Q) (s : list float) (c : Q) :
  0 <= q -> q <= 1 -> dropna s <> [] -> Forall (fun x => x == c) (dropna s) ->
  float_eq (quantile q s) (Some c).
Proof.
  intros H0 H1 Hne Hall. unfold quantile. apply percentile_constant; try assumption.
  - intros E. apply Hne. apply Permutation_nil. rewrite <- E. apply sort_perm.
  - eapply Permutation_Forall; [apply Permutation_sym, sort_perm|exact Hall].
Qed.

Lemma bounds_constant (s : list float) (c : Q) :
  dropna s <> [] -> Forall (fun x => x == c) (dropna s) ->
  float_eq (quantile 0.75 s - quantile 0.25 s)%fl (Some 0) /\
  float_eq (fst (bounds s)) (Some c) /\
  float_eq (snd (bounds s)) (Some c).
Proof.
  intros Hne Hall.
  pose proof (@quantile_constant 0.25 s c ltac:(lra) ltac:(lra) Hne Hall) as E1.
  pose proof (@quantile_constant 0.75 s c ltac:(lra) ltac:(lra) Hne Hall) as E3.
  unfold bounds. cbv zeta.
  destruct (quantile 0.25 s) as [q1|]; [|contradiction].
  destruct (quantile 0.75 s) as [q3|]; [|contradiction].
  simpl in *. repeat split; lra.
Qed.

Lemma spec_percentile_flat (p : Q) (a : list Q) (c : Q) (lo hi : nat) :
  a <> [] ->
  (forall i d0, (lo <= i <= hi)%nat -> nth i a d0 == c) ->
  inject_Z (Z.of_nat lo) <= p * (inject_Z (Z.of_nat (length a)) - 1) ->
  p * (inject_Z (Z.of_nat (length a)) - 1) <= inject_Z (Z.of_nat hi) ->
  exists v, spec_percentile p a = Some v /\ v == c.
Proof.
  intros Hne Hflat Hlo Hhi. destruct a as [|x0 tl]; [congruence|].
  unfold spec_percentile. cbv zeta.
  set (rank := p * (inject_Z (Z.of_nat (length (x0 :: tl))) - 1)) in *.
  assert (Hf : (Z.of_nat lo <= Qfloor rank)%Z).
  { rewrite <- (Qfloor_Z (Z.of_nat lo)). apply Qfloor_resp_le. exact Hlo. }
  assert (Hc : (Qceiling rank <= Z.of_nat hi)%Z).
  { rewrite <- (Qceiling_Z (Z.of_nat hi)). apply Qceiling_resp_le. exact Hhi. }
  assert (Hfc : (Qfloor rank <= Qceiling rank)%Z).
  { rewrite Zle_Qle. apply Qle_floor_ceiling. }
  clearbody rank.
  assert (Ea : nth (Z.to_nat (Qfloor rank)) (x0 :: tl) x0 == c) by (apply Hflat; lia).
  assert (Eb : nth (Z.to_nat (Qceiling rank)) (x0 :: tl) x0 == c) by (apply Hflat; lia).
  eexists. split; [reflexivity|]. rewrite Ea, Eb. ring.
Qed.

Lemma Forall_Qeq_sorted_cons (d c : Q) (l : list Q) :
  d <= c -> Forall (fun x => x == c) l -> Sorted Qle l -> Sorted Qle (d :: l).
Proof.
  intros Hd Hall Hs. constructor; [exact Hs|].
  destruct l as [|y l]; constructor.
  inversion Hall as [|? ? Hy _]; subst. rewrite Hy. exact Hd.
Qed.

Lemma Forall_Qeq_sorted (c : Q) (l : list Q) :
  Forall (fun x => x == c) l -> StronglySorted Qle l.
Proof.
  induction 1 as [|x l Hx Hall IH]; constructor; [exact IH|].
  eapply Forall_impl; [|exact Hall]. intros y Hy. simpl in Hy. rewrite Hx, Hy. apply Qle_refl.
Qed.

Lemma Forall_Qeq_sorted_snoc (d c : Q) (l : list Q) :
  c <= d -> Forall (fun x => x == c) l -> Sorted Qle (l ++ [d]).
Proof.
  intros Hd Hall. apply StronglySorted_Sorted.
  induction Hall as [|x l Hx Hall IH]; simpl.
  - constructor; constructor.
  - constructor; [exact IH|]. apply Forall_app. split.
    + eapply Forall_impl; [|exact Hall]. intros y Hy. simpl in Hy. rewrite Hx, Hy. apply Qle_refl.
    + constructor; [|constructor]. rewrite Hx. exact Hd.
Qed.

Lemma rank_of_length (p : Q) (m : nat) (a : list Q) :
  length a = S m ->
  p * (inject_Z (Z.of_nat (length a)) - 1) == p * inject_Z (Z.of_nat m).
Proof. intros E. rewrite E. apply virtual_index_succ. Qed.

Lemma inject_nat_le (k m : nat) : (k <= m)%nat -> inject_Z (Z.of_nat k) <= inject_Z (Z.of_nat m).
Proof. intros H. rewrite <- Zle_Qle. lia. Qed.

Lemma inject_nat_pred (m : nat) :
  (1 <= m)%nat -> inject_Z (Z.of_nat (m - 1)) == inject_Z (Z.of_nat m) - 1.
Proof.
  intros H. replace (Z.of_nat (m - 1)) with (Z.of_nat m + (- 1))%Z by lia.
  rewrite inject_Z_plus. change (inject_Z (-1)) with (-(1))%Q. ring.
Qed.

(** One low value under at least three equal ones. *)
Lemma low_value_outlier (cs : list Q) (c d : Q) :
  Forall (fun x => x == c) cs -> (3 <= length cs)%nat -> d < c ->
  spec_outlier (d :: cs) (Some d).
Proof.
  intros Hall Hlen Hd.
  assert (Hnth : forall i d0, (1 <= i <= length cs)%nat -> nth i (d :: cs) d0 == c).
  { intros [|i] d0 Hi; [lia|]. simpl. apply nth_all_Qeq; [exact Hall|lia]. }
  assert (Hlen' : length (d :: cs) = S (length cs)) by reflexivity.
  pose proof (@inject_nat_le 3 (length cs) Hlen) as HM.
  change (inject_Z (Z.of_nat 3)) with 3 in HM.
  destruct (@spec_percentile_flat 0.75 (d :: cs) c 1 (length cs)) as (q3 & E3 & Hq3).
  { discriminate. }
  { exact Hnth. }
  { rewrite (@rank_of_length 0.75 _ _ Hlen'). change (inject_Z (Z.of_nat 1)) with 1. lra. }
  { rewrite (@rank_of_length 0.75 _ _ Hlen'). lra. }
  destruct (Nat.eq_dec (length cs) 3) as [E|E].
  - destruct cs as [|x [|y [|z [|u cs]]]]; simpl in E; try lia.
    inversion Hall as [|? ? Hx Hall1]; subst.
    exists d. eexists. exists q3.
    split; [reflexivity|]. split; [unfold spec_percentile; reflexivity|].
    split; [exact E3|]. left. cbv zeta.
    set (rank := 0.25 * (inject_Z (Z.of_nat (length [d; x; y; z])) - 1)).
    assert (Hr : rank == 3 # 4) by reflexivity.
    assert (Hfl : Qfloor rank = 0%Z) by reflexivity.
    assert (Hce : Qceiling rank = 1%Z) by reflexivity.
    rewrite Hfl, Hce. simpl nth. rewrite Hr, Hq3, Hx.
    change (inject_Z 0) with 0. lra.
  - destruct (@spec_percentile_flat 0.25 (d :: cs) c 1 (length cs)) as (q1 & E1 & Hq1).
    { discriminate. }
    { exact Hnth. }
    { rewrite (@rank_of_length 0.25 _ _ Hlen'). change (inject_Z (Z.of_nat 1)) with 1.
      assert (H4 : 4 <= inject_Z (Z.of_nat (length cs))).
      { change 4 with (inject_Z (Z.of_nat 4)). apply inject_nat_le. lia. }
      lra. }
    { rewrite (@rank_of_length 0.25 _ _ Hlen'). lra. }
    exists d, q1, q3. split; [reflexivity|]. split; [exact E1|]. split; [exact E3|].
    left. rewrite Hq1, Hq3. lra.
Qed.

(** One high value over at least three equal ones. *)
Lemma high_value_outlier (cs : list Q) (c d : Q) :
  Forall (fun x => x == c) cs -> (3 <= length cs)%nat -> c < d ->
  spec_outlier (cs ++ [d]) (Some d).
Proof.
  intros Hall Hlen Hd.
  assert (Hnth : forall i d0, (0 <= i <= length cs - 1)%nat -> nth i (cs ++ [d]) d0 == c).
  { intros i d0 Hi. rewrite app_nth1 by lia. apply nth_all_Qeq; [exact Hall|lia]. }
  assert (Hlen' : length (cs ++ [d]) = S (length cs)) by (rewrite length_app; simpl; lia).
  pose proof (@inject_nat_le 3 (length cs) Hlen) as HM.
  change (inject_Z (Z.of_nat 3)) with 3 in HM.
  assert (Hpred : inject_Z (Z.of_nat (length cs - 1)) == inject_Z (Z.of_nat (length cs)) - 1)
    by (apply inject_nat_pred; lia).
  assert (Hne : cs ++ [d] <> []) by (destruct cs; discriminate).
  destruct (@spec_percentile_flat 0.25 (cs ++ [d]) c 0 (length cs - 1)) as (q1 & E1 & Hq1).
  { exact Hne. }
  { exact Hnth. }
  { rewrite (@rank_of_length 0.25 _ _ Hlen'). change (inject_Z (Z.of_nat 0)) with 0. lra. }
  { rewrite (@rank_of_length 0.25 _ _ Hlen'), Hpred. lra. }
  destruct (Nat.eq_dec (length cs) 3) as [E|E].
  - destruct cs as [|x [|y [|z [|u cs]]]]; simpl in E; try lia.
    inversion Hall as [|? ? Hx Hall1]; subst.
    inversion Hall1 as [|? ? Hy Hall2]; subst.
    inversion Hall2 as [|? ? Hz Hall3]; subst.
    exists d, q1. eexists.
    split; [reflexivity|]. split; [exact E1|].
    split; [unfold spec_percentile; reflexivity|]. right. cbv zeta.
    set (rank := 0.75 * (inject_Z (Z.of_nat (length ([x; y; z] ++ [d]))) - 1)).
    assert (Hr : rank == 9 # 4) by reflexivity.
    assert (Hfl : Qfloor rank = 2%Z) by reflexivity.
    assert (Hce : Qceiling rank = 3%Z) by reflexivity.
    rewrite Hfl, Hce. simpl nth. rewrite Hr, Hq1, Hz.
    change (inject_Z 2) with 2. lra.
  - destruct (@spec_percentile_flat 0.75 (cs ++ [d]) c 0 (length cs - 1)) as (q3 & E3 & Hq3).
    { exact Hne. }
    { exact Hnth. }
    { rewrite (@rank_of_length 0.75 _ _ Hlen'). change (inject_Z (Z.of_nat 0)) with 0. lra. }
    { rewrite (@rank_of_length 0.75 _ _ Hlen'), Hpred.
      assert (H4 : 4 <= inject_Z (Z.of_nat (length cs))).
      { change 4 with (inject_Z (Z.of_nat 4)). apply inject_nat_le. lia. }
      lra. }
    exists d, q1, q3. split; [reflexivity|]. split; [exact E1|]. split; [exact E3|].
    right. rewrite Hq1, Hq3. lra.
Qed.

(** A value differing from at least three equal ones is outside the bounds
    of some (hence any) sorted arrangement of them all. *)
Lemma differing_value_outlier (cs : list Q) (c d : Q) :
  Forall (fun x => x == c) cs -> (3 <= length cs)%nat -> ~ d == c ->
  exists a, Sorted Qle a /\ Permutation a (d :: cs) /\ spec_outlier a (Some d).
Proof.
  intros Hall Hlen Hd.
  destruct (Q_dec d c) as [[Hlt|Hgt]|Heq]; [| |contradiction].
  - exists (d :: cs). split; [|split].
    + apply Forall_Qeq_sorted_cons with (c := c); [apply Qlt_le_weak; exact Hlt|exact Hall|].
      apply StronglySorted_Sorted, Forall_Qeq_sorted with (c := c). exact Hall.
    + apply Permutation_refl.
    + apply low_value_outlier with (c := c); assumption.
  - exists (cs ++ [d]). split; [|split].
    + apply Forall_Qeq_sorted_snoc with (c := c); [apply Qlt_le_weak; exact Hgt|exact Hall].
    + apply Permutation_sym, Permutation_cons_append.
    + apply high_value_outlier with (c := c); assumption.
Qed.

Lemma dropna_app (s1 s2 : list float) : dropna (s1 ++ s2) = dropna s1 ++ dropna s2.
Proof.
  induction s1 as [|[x|] s1 IH]; simpl; [reflexivity| |exact IH]. rewrite IH. reflexivity.
Qed.

Lemma equal_cells_values (j : nat) (c : Q) (rs : list Row) :
  Forall (fun r' => exists x, cell j r' = VNum x /\ x == c) rs ->
  Forall (fun x => x == c) (dropna (map (fun r => to_float (cell j r)) rs)) /\
  length (dropna (map (fun r => to_float (cell j r)) rs)) = length rs.
Proof.
  induction 1 as [|r rs (x & Hx & Hc) Hall [IH1 IH2]]; simpl.
  - split; [constructor|reflexivity].
  - rewrite Hx. simpl. split; [constructor; assumption|rewrite IH2; reflexivity].
Qed.

(** ** What a pass reads and what it leaves *)


(** The rows a pass flags and the rows it leaves, as functions of the
    frame it finds. *)
Lemma loop_body_pass (j : nat) (column : string) (l : Locals) (w : World) :
  let df := deref w (cleaned_data l) in
  let new := if is_numeric_dtype (dtype_at df j) then flagged j (rows df) else [] in
  outlier_rows (fst (loop_body j column l w)) =
    outlier_rows l ++ map (as_series (columns df)) new /\
  stdout (snd (loop_body j column l w)) = stdout w ++ map (as_diagnostic j column) new /\
  rows (deref (snd (loop_body j column l w)) (cleaned_data (fst (loop_body j column l w)))) =
    (if is_numeric_dtype (dtype_at df j) then retained j (rows df) else rows df).
Proof.
  intros df new. subst new.
  destruct (is_numeric_dtype (dtype_at df j)) eqn:Hnum.
  - rewrite (loop_body_numeric j column l w Hnum). cbv zeta. fold df. simpl.
    unfold deref at 1. simpl. rewrite nth_app_second. simpl. auto.
  - rewrite (loop_body_skip j column l w Hnum). simpl. rewrite !app_nil_r. auto.
Qed.


Lemma dropna_perm (s s' : list float) : Permutation s s' -> Permutation (dropna s) (dropna s').
Proof.
  induction 1 as [|x s s' H IH|x y s|s1 s2 s3 H12 IH12 H23 IH23]; simpl.
  - constructor.
  - destruct x; [constructor|]; exact IH.
  - destruct x, y; try apply Permutation_refl. apply perm_swap.
  - eapply Permutation_trans; eassumption.
Qed.

Lemma percentile_Qeq (q : Q) (l1 l2 : list Q) :
  Forall2 Qeq l1 l2 -> float_eq (percentile q l1) (percentile q l2).
Proof.
  intros H. pose proof (Forall2_length H) as Hlen.
  destruct H as [|x y l1 l2 Hxy H]; [exact I|].
  assert (H' : Forall2 Qeq (x :: l1) (y :: l2)) by (constructor; assumption).
  unfold percentile, float_eq. rewrite Hlen. cbv zeta. unfold lerp.
  set (n := length (y :: l2)). set (idx := virtual_index q n).
  rewrite (Forall2_Qeq_nth H' (Z.to_nat (Qfloor idx)) Hxy).
  rewrite (Forall2_Qeq_nth H' (Nat.min (Z.to_nat (Qfloor idx) + 1) (n - 1)) Hxy).
  apply Qeq_refl.
Qed.

Lemma quantile_perm (q : Q) (s s' : list float) :
  Permutation s s' -> float_eq (quantile q s) (quantile q s').
Proof.
  intros H. unfold quantile. apply percentile_Qeq, sort_perm_Qeq, dropna_perm, H.
Qed.


(** ** The docstring example

    The docstring promises a second line for row 3 and column B.  Row 3
    leaves the table in the pass of column A, so the pass of column B,
    whose quartiles are those of [4, 5, 6], neither prints nor collects
    it. *)

Example docstring_frame_prints_once :
  fst run_AB = Returned 5 /\
  stdout (snd run_AB) = [ {| diag_row := 3; diag_column := "A"; diag_value := VNum 1000 |} ] /\
  rows (deref (snd run_AB) 5) = [row_of 0 [1%Z; 4%Z]; row_of 1 [2%Z; 5%Z]; row_of 2 [3%Z; 6%Z]] /\
  files (snd run_AB) "outliers.csv" =
    Some {| header := ["A"%string; "B"%string]; records := [[VNum 1000; VNum (-999)]] |}.
Proof. repeat split; vm_compute; reflexivity. Qed.

Example nan_row_survives_the_call :
  rows (deref (snd (clean_outliers (PyFrame 0) "outliers.csv" (world0 [frame_nan]))) 3) =
  [row_of 0 [1%Z]; {| label := 1; cells := [VNaN] |}; row_of 2 [2%Z]; row_of 3 [3%Z]].
Proof. vm_compute. reflexivity. Qed.

(** * The claims *)



(** C4, as amended: for the single column [1, 2, 3, 1000] the quartiles
    are Q1 = 1.75 and Q3 = 252.25, so IQR = 250.5 and the bounds are -374
    and 628; the row holding 1000 is printed, written to the file and
    dropped, and the frame returned holds the rows 1, 2, 3 in that order. *)
Theorem docstring_column_A :
  float_eq (quantile 0.25 (getitem frame_A 0)) (Some 1.75) /\
  float_eq (quantile 0.75 (getitem frame_A 0)) (Some 252.25) /\
  float_eq (quantile 0.75 (getitem frame_A 0) - quantile 0.25 (getitem frame_A 0))%fl
           (Some 250.5) /\
  float_eq (fst (bounds (getitem frame_A 0))) (Some (-374)) /\
  float_eq (snd (bounds (getitem frame_A 0))) (Some 628) /\
  fst docstring_run = Returned 3 /\
  rows (deref (snd docstring_run) 3) = [row_of 0 [1%Z]; row_of 1 [2%Z]; row_of 2 [3%Z]] /\
  stdout (snd docstring_run) =
    [ {| diag_row := 3; diag_column := "A"; diag_value := VNum 1000 |} ] /\
  files (snd docstring_run) "outliers.csv" =
    Some {| header := ["A"%string]; records := [[VNum 1000]] |}.
Proof. repeat split; vm_compute; reflexivity. Qed.

(** C4, as claimed, fails: the first quartile of [1, 2, 3, 1000] is not
    1.5, the third is not 2.5, and the upper bound is not 4. *)
Lemma docstring_quartiles_not_as_claimed :
  (float_eq (quantile 0.25 (getitem frame_A 0)) (Some 1.5) -> False) /\
  (float_eq (quantile 0.75 (getitem frame_A 0)) (Some 2.5) -> False) /\
  (float_eq (snd (bounds (getitem frame_A 0))) (Some 4) -> False).
Proof. repeat split; vm_compute; discriminate. Qed.




(** C6, as amended: a column whose present values are all equal to one
    float64 value [c] has Q1 = Q3 = c, IQR = 0 and both bounds equal to
    [c]; and in the pass of an int64 or float64 column of a frame with
    distinct labels, holding one float64 value different from [c] next to
    at least five rows that all hold [c], the differing row is printed,
    collected and dropped.  With five equal values or more both quartiles
    are interpolated between two copies of [c], so no rounding enters. *)
Theorem zero_spread_columns :
  (forall (s : list float) (c : Q),
     binary64 c ->
     dropna s <> [] -> Forall (fun x => x == c) (dropna s) ->
     float_eq (quantile 0.25 s) (Some c) /\
     float_eq (quantile 0.75 s) (Some c) /\
     float_eq (quantile 0.75 s - quantile 0.25 s)%fl (Some 0) /\
     float_eq (fst (bounds s)) (Some c) /\
     float_eq (snd (bounds s)) (Some c)) /\
  (forall (j : nat) (column : string) (l : Locals) (w : World)
          (pre post : list Row) (r : Row) (c d : Q),
     plain_frame (deref w (cleaned_data l)) ->
     nth_error (columns (deref w (cleaned_data l))) j = Some column ->
     is_numeric_dtype (dtype_at (deref w (cleaned_data l)) j) = true ->
     rows (deref w (cleaned_data l)) = pre ++ r :: post ->
     Forall (fun r' => exists x, cell j r' = VNum x /\ x == c) (pre ++ post) ->
     (5 <= length (pre ++ post))%nat ->
     binary64 c -> binary64 d ->
     cell j r = VNum d -> ~ d == c ->
     exists new printed,
       outlier_rows (fst (loop_body j column l w)) = outlier_rows l ++ new /\
       stdout (snd (loop_body j column l w)) = stdout w ++ printed /\
       (exists s, In s new /\ name s = label r) /\
       (exists line, In line printed /\ diag_row line = label r /\
                     diag_column line = column) /\
       ~ In r (rows (deref (snd (loop_body j column l w))
                           (cleaned_data (fst (loop_body j column l w)))))).
Proof.
  split.
  - intros s c _ Hne Hall.
    destruct (bounds_constant s Hne Hall) as (Hi & Hl & Hu).
    repeat split; try assumption; apply quantile_constant; try assumption; lra.
  - intros j column l w pre post r c d _ _ Hnum Hrows Hothers Hlen _ _ Hcell Hdiff.
    pose proof (loop_body_pass j column l w) as Hpass. cbv zeta in Hpass.
    rewrite Hnum in Hpass. destruct Hpass as (Hnew & Hprint & Hleft).
    set (df := deref w (cleaned_data l)) in *.
    destruct (equal_cells_values j Hothers) as [Hcs Hcslen].
    set (f := fun r0 : Row => to_float (cell j r0)) in *.
    destruct (@differing_value_outlier (dropna (map f (pre ++ post))) c d Hcs
                ltac:(rewrite Hcslen; lia) Hdiff) as (a & Hsorted & Hperm & Hout).
    assert (Hp : Permutation a (dropna (map f (rows df)))).
    { eapply Permutation_trans; [exact Hperm|].
      rewrite Hrows, !map_app, !dropna_app. simpl. unfold f at 4. rewrite Hcell. simpl.
      apply Permutation_middle. }
    assert (Hflag : is_outlier j (bounds (map f (rows df))) r = true).
    { apply (is_outlier_spec j (rows df) r Hsorted Hp). unfold f. rewrite Hcell. exact Hout. }
    assert (Hin : In r (flagged j (rows df))).
    { unfold flagged. apply filter_In. split; [|exact Hflag].
      rewrite Hrows. apply in_elt. }
    exists (map (as_series (columns df)) (flagged j (rows df))),
           (map (as_diagnostic j column) (flagged j (rows df))).
    split; [exact Hnew|]. split; [exact Hprint|]. split; [|split].
    + exists (as_series (columns df) r). split; [apply in_map; exact Hin|reflexivity].
    + exists (as_diagnostic j column r). split; [apply in_map; exact Hin|].
      split; reflexivity.
    + rewrite Hleft. unfold retained. intros Hk. apply filter_In in Hk.
      destruct Hk as [_ Hk]. fold f in Hk. rewrite Hflag in Hk. discriminate.
Qed.

Lemma zero_spread_columns_witness :
  exists new printed,
    outlier_rows (fst (loop_body 0 "A" docstring_A_locals (world0 [frame_555557]))) =
      outlier_rows docstring_A_locals ++ new /\
    stdout (snd (loop_body 0 "A" docstring_A_locals (world0 [frame_555557]))) =
      stdout (world0 [frame_555557]) ++ printed /\
    (exists s, In s new /\ name s = label (row_of 5 [7%Z])) /\
    (exists line, In line printed /\ diag_row line = label (row_of 5 [7%Z]) /\
                  diag_column line = "A"%string) /\
    ~ In (row_of 5 [7%Z])
         (rows (deref (snd (loop_body 0 "A" docstring_A_locals (world0 [frame_555557])))
                      (cleaned_data (fst (loop_body 0 "A" docstring_A_locals
                                                    (world0 [frame_555557])))))).
Proof.
  apply (proj2 zero_spread_columns 0%nat "A"%string docstring_A_locals (world0 [frame_555557])
               [row_of 0 [5%Z]; row_of 1 [5%Z]; row_of 2 [5%Z]; row_of 3 [5%Z]; row_of 4 [5%Z]]
               [] (row_of 5 [7%Z]) 5 7).
  - split; repeat constructor; simpl; intuition discriminate.
  - reflexivity.
  - reflexivity.
  - reflexivity.
  - repeat constructor; exists 5; split; reflexivity.
  - simpl. lia.
  - exists 5%Z, 0%Z. split; [reflexivity|]. split; [split; discriminate|reflexivity].
  - exists 7%Z, 0%Z. split; [reflexivity|]. split; [split; discriminate|reflexivity].
  - reflexivity.
  - intros H. discriminate H.
Defined.

(** C6, as claimed, fails with fewer than four rows: in [5, 5, 7] the
    quartiles are 5 and 6 and the bounds 3.5 and 7.5, so the row holding 7
    stays, nothing is printed and nothing is collected. *)
Lemma lone_differing_row_kept :
  fst run_557 = Returned 3 /\
  deref (snd run_557) 3 = frame_557 /\
  stdout (snd run_557) = [] /\
  files (snd run_557) "outliers.csv" = Some {| header := []; records := [] |}.
Proof. repeat split; reflexivity. Qed.

(** C7: with no numeric column the call returns a frame equal to the
    input, prints nothing and writes a file without data rows; and in any
    frame the pass of a non-numeric column changes nothing. *)
Theorem no_numeric_column_keeps_everything
    (a : nat) (outliers_csv : string) (w : World) :
  (forall c d, In (c, d) (schema (deref w a)) -> is_numeric_dtype d = false) ->
  writable w outliers_csv = true ->
  (exists a' w',
     clean_outliers (PyFrame a) outliers_csv w = (Returned a', w') /\
     deref w' a' = deref w a /\
     stdout w' = stdout w /\
     exists f, files w' outliers_csv = Some f /\ records f = []) /\
  (forall j column l w0,
     is_numeric_dtype (dtype_at (deref w0 (cleaned_data l)) j) = false ->
     loop_body j column l w0 = (l, w0)).
Proof.
  intros Hobj Hw. split; [|intros j column l w0; apply loop_body_skip].
  destruct (clean_outliers_completes a outliers_csv w Hw) as (a' & w' & Hrun).
  exists a', w'. split; [exact Hrun|].
  destruct (clean_outliers_returned a outliers_csv w Hrun)
    as (_ & Hsch & Hrows & Hout & Hfile & _).
  pose proof (@sweep_no_numeric (schema (deref w a)) (columns (deref w a))
                                (no_numeric_nth _ Hobj) 0 (rows (deref w a))) as Hsweep.
  unfold kept_rows in Hrows. unfold collected in Hout.
  rewrite Hsweep in Hrows, Hout. simpl in Hrows, Hout.
  split; [apply frame_eq; assumption|].
  split; [rewrite Hout; apply app_nil_r|].
  exists (outliers_file (deref w a)). split; [exact Hfile|].
  rewrite outliers_file_records. unfold collected. rewrite Hsweep. reflexivity.
Qed.

Lemma no_numeric_column_keeps_everything_witness :
  exists a' w',
    clean_outliers (PyFrame 0) "outliers.csv" (world0 [frame_names]) = (Returned a', w') /\
    deref w' a' = frame_names.
Proof.
  assert (Hobj : forall c d, In (c, d) (schema (deref (world0 [frame_names]) 0)) ->
                             is_numeric_dtype d = false).
  { intros c d [E|[]]. inversion E. reflexivity. }
  assert (Hw : writable (world0 [frame_names]) "outliers.csv" = true) by reflexivity.
  destruct (@no_numeric_column_keeps_everything 0 "outliers.csv" (world0 [frame_names]) Hobj Hw)
    as ((a' & w' & Hrun & Hsame & _) & _).
  exists a', w'. split; [exact Hrun|exact Hsame].
Defined.

(** C8: called with None, the function raises at once; nothing is printed,
    no object is created and no file is written. *)
Theorem missing_table_raises_before_any_output (outliers_csv : string) (w : World) :
  fst (clean_outliers PyNone outliers_csv w) = Raised AttributeError /\
  files (snd (clean_outliers PyNone outliers_csv w)) = files w /\
  stdout (snd (clean_outliers PyNone outliers_csv w)) = stdout w /\
  heap (snd (clean_outliers PyNone outliers_csv w)) = heap w.
Proof. unfold clean_outliers. simpl. auto. Qed.



(** * Further properties of the function *)

Lemma Qlt_bool_false (a b : Q) : b <= a -> Qlt_bool a b = false.
Proof.
  intros H. destruct (Qlt_bool a b) eqn:E; [|reflexivity].
  apply Qlt_bool_iff in E. lra.
Qed.

(** ** The order of the printed lines *)








(** ** Writing the file, and the objects of the call *)

(** X4: on a frame with distinct labels and int64, float64 or non-numeric
    columns, when the path cannot be written the call raises OSError after
    the loop has run: what it has printed by then is what the same call
    prints when the path can be written, no file is changed, and every
    object that existed before the call is as it was. *)
Theorem failed_write_raises_after_printing (a : nat) (outliers_csv : string) (w : World) :
  plain_frame (deref w a) ->
  writable w outliers_csv = false ->
  exists w',
    clean_outliers (PyFrame a) outliers_csv w = (Raised OSError, w') /\
    (exists a2 w2,
       clean_outliers (PyFrame a) outliers_csv (all_writable w) = (Returned a2, w2) /\
       stdout w' = stdout w2) /\
    files w' = files w /\
    (forall b, (b < length (heap w))%nat -> deref w' b = deref w b).
Proof.
  intros _ Hw.
  destruct (clean_outliers_run a outliers_csv w)
    as (l & w2 & E & _ & _ & Hout & Hfiles & Hwr & more & Hheap).
  rewrite E. unfold to_csv. rewrite Hwr, Hw.
  exists w2. split; [reflexivity|]. split; [|split; [exact Hfiles|]].
  - destruct (@clean_outliers_completes a outliers_csv (all_writable w) eq_refl)
      as (a3 & w3 & Hrun).
    exists a3, w3. split; [exact Hrun|].
    destruct (clean_outliers_returned a outliers_csv (all_writable w) Hrun)
      as (_ & _ & _ & Hout3 & _).
    rewrite Hout, Hout3. reflexivity.
  - intros b Hb. apply (@deref_app_old w b more w2 Hheap Hb).
Qed.

Lemma failed_write_raises_after_printing_witness :
  exists w',
    clean_outliers (PyFrame 0) "outliers.csv" (read_only (world0 [frame_A])) =
      (Raised OSError, w') /\
    stdout w' = [ {| diag_row := 3; diag_column := "A"; diag_value := VNum 1000 |} ] /\
    files w' "outliers.csv" = None.
Proof.
  destruct (@failed_write_raises_after_printing 0 "outliers.csv"
              (read_only (world0 [frame_A]))) as (w' & H1 & (a2 & w2 & H2 & H3) & H4 & _).
  - split; repeat constructor; simpl; intuition discriminate.
  - reflexivity.
  - exists w'. split; [exact H1|]. split.
    + rewrite H3.
      assert (E : (Returned a2, w2) = (Returned 3, snd docstring_run)).
      { rewrite <- H2. reflexivity. }
      inversion E. reflexivity.
    + rewrite H4. reflexivity.
Defined.

(** X8: on a frame with distinct labels and int64, float64 or non-numeric
    columns, a call completes exactly when the path can be written, and a
    call that completes leaves every other file as it was. *)
Theorem completes_iff_writable_and_writes_one_file
    (a : nat) (outliers_csv : string) (w : World) :
  plain_frame (deref w a) ->
  (writable w outliers_csv = true <->
   exists a' w', clean_outliers (PyFrame a) outliers_csv w = (Returned a', w')) /\
  (forall a' w',
     clean_outliers (PyFrame a) outliers_csv w = (Returned a', w') ->
     forall p, p <> outliers_csv -> files w' p = files w p).
Proof.
  intros _. split; [split|].
  - apply clean_outliers_completes.
  - intros (a' & w' & Hrun).
    destruct (clean_outliers_returned a outliers_csv w Hrun) as (Hw & _). exact Hw.
  - intros a' w' Hrun.
    destruct (clean_outliers_returned a outliers_csv w Hrun) as (_ & _ & _ & _ & _ & H & _).
    exact H.
Qed.

Lemma completes_iff_writable_and_writes_one_file_witness :
  (exists a' w', clean_outliers (PyFrame 0) "outliers.csv" (world0 [frame_A]) =
                 (Returned a', w')) /\
  files (snd docstring_run) "other.csv" = None.
Proof.
  destruct (@completes_iff_writable_and_writes_one_file 0 "outliers.csv" (world0 [frame_A]))
    as [Hiff Hother].
  - split; repeat constructor; simpl; intuition discriminate.
  - split.
    + apply Hiff. reflexivity.
    + rewrite (Hother 3%nat (snd docstring_run) eq_refl "other.csv"%string).
      * reflexivity.
      * discriminate.
Defined.

(** X12: the frame returned by a call that completes has the columns of
    the input and holds rows of the input, unchanged and in their order;
    the frame the caller passed, as every object that existed before the
    call, is left as it was. *)
Theorem kept_rows_come_from_the_input
    (a : nat) (outliers_csv : string) (w w' : World) (a' : nat) :
  (a < length (heap w))%nat ->
  clean_outliers (PyFrame a) outliers_csv w = (Returned a', w') ->
  schema (deref w' a') = schema (deref w a) /\
  subseq (rows (deref w' a')) (rows (deref w a)) /\
  deref w' a = deref w a /\
  (forall b, (b < length (heap w))%nat -> deref w' b = deref w b).
Proof.
  intros Ha Hrun.
  destruct (clean_outliers_returned a outliers_csv w Hrun)
    as (_ & Hsch & Hrows & _ & _ & _ & more & Hheap).
  split; [exact Hsch|]. split.
  { rewrite Hrows. apply sweep_kept_subseq. }
  split.
  - apply (@deref_app_old w a more w' Hheap Ha).
  - intros b Hb. apply (@deref_app_old w b more w' Hheap Hb).
Qed.

Lemma kept_rows_come_from_the_input_witness :
  schema (deref (snd run_AB) 5) = schema frame_AB /\
  subseq (rows (deref (snd run_AB) 5)) (rows frame_AB) /\
  deref (snd run_AB) 0 = frame_AB.
Proof.
  assert (Ha : (0 < length (heap (world0 [frame_AB])))%nat) by (simpl; lia).
  assert (Hrun : clean_outliers (PyFrame 0) "outliers.csv" (world0 [frame_AB]) =
                 (Returned 5, snd run_AB)) by reflexivity.
  destruct (@kept_rows_come_from_the_input 0 "outliers.csv" (world0 [frame_AB])
              (snd run_AB) 5 Ha Hrun) as (H1 & H2 & H3 & _).
  split; [exact H1|]. split; [exact H2|exact H3].
Defined.

Lemma for_columns_address (cols : list string) :
  forall (j : nat) (l : Locals) (w : World),
    (cleaned_data l < length (heap w))%nat ->
    (cleaned_data l <= cleaned_data (fst (for_columns j cols l w)))%nat /\
    (cleaned_data (fst (for_columns j cols l w)) <
     length (heap (snd (for_columns j cols l w))))%nat.
Proof.
  induction cols as [|column cols IH]; intros j l w Hl; simpl.
  - split; [lia|exact Hl].
  - destruct (is_numeric_dtype (dtype_at (deref w (cleaned_data l)) j)) eqn:Hnum.
    + rewrite (loop_body_numeric j column l w Hnum). cbv zeta.
      match goal with |- context [for_columns (S j) cols ?l1 ?w1] =>
        specialize (IH (S j) l1 w1) end.
      simpl in IH. rewrite length_app in IH. simpl in IH.
      destruct IH as [H1 H2]; [lia|]. split; [lia|exact H2].
    + rewrite (loop_body_skip j column l w Hnum). apply IH. exact Hl.
Qed.

(** X5: the frame returned is an object created by the call, never the
    frame that was passed in nor any other object that existed before. *)
Theorem returned_frame_is_new
    (a : nat) (outliers_csv : string) (w w' : World) (a' : nat) :
  clean_outliers (PyFrame a) outliers_csv w = (Returned a', w') ->
  (length (heap w) <= a')%nat /\ (a' < length (heap w'))%nat /\
  ((a < length (heap w))%nat -> a' <> a).
Proof.
  intros Hrun. unfold clean_outliers in Hrun.
  unfold alloc at 1 in Hrun.
  set (w1 := {| heap := heap w ++ [copy (deref w a)]; stdout := stdout w;
                files := files w; writable := writable w |}) in *.
  pose proof (for_columns_address (columns (deref w1 (length (heap w)))) 0
                {| cleaned_data := length (heap w); outlier_rows := [] |} w1) as Haddr.
  simpl cleaned_data in Haddr at 1 2.
  destruct (for_columns 0 (columns (deref w1 (length (heap w))))
              {| cleaned_data := length (heap w); outlier_rows := [] |} w1) as [l w2].
  simpl fst in Haddr. simpl snd in Haddr.
  destruct Haddr as [H1 H2].
  { subst w1. simpl. rewrite length_app. simpl. lia. }
  unfold to_csv in Hrun. destruct (writable w2 outliers_csv); [|discriminate].
  inversion Hrun; subst a' w'. simpl. split; [exact H1|]. split; [exact H2|]. lia.
Qed.

Lemma returned_frame_is_new_witness :
  (length (heap (world0 [frame_A])) <= 3)%nat /\ (3 < length (heap (snd docstring_run)))%nat /\
  ((0 < length (heap (world0 [frame_A])))%nat -> 3%nat <> 0%nat).
Proof.
  apply (@returned_frame_is_new 0 "outliers.csv" (world0 [frame_A]) (snd docstring_run) 3).
  reflexivity.
Defined.

(** X6: on a table without rows the call completes (the path being
    writable) whatever the dtypes of the columns: the frame returned
    equals the input, nothing is printed, and the file written has
    neither header fields nor records. *)
Theorem empty_table_passes_through (a : nat) (outliers_csv : string) (w : World) :
  rows (deref w a) = [] ->
  writable w outliers_csv = true ->
  exists a' w',
    clean_outliers (PyFrame a) outliers_csv w = (Returned a', w') /\
    deref w' a' = deref w a /\
    stdout w' = stdout w /\
    files w' outliers_csv = Some {| header := []; records := [] |}.
Proof.
  intros Hempty Hw.
  destruct (clean_outliers_completes a outliers_csv w Hw) as (a' & w' & Hrun).
  exists a', w'. split; [exact Hrun|].
  destruct (clean_outliers_returned a outliers_csv w Hrun)
    as (_ & Hsch & Hrows & Hout & Hfile & _).
  pose proof (sweep_partition (schema (deref w a)) (columns (deref w a)) 0
                              (rows (deref w a))) as Hperm.
  rewrite Hempty in Hperm. apply Permutation_sym, Permutation_nil in Hperm.
  apply app_eq_nil in Hperm. destruct Hperm as [Hc Hk].
  apply map_eq_nil in Hc. rewrite <- Hempty in Hc, Hk.
  fold (collected (deref w a)) in Hc. fold (kept_rows (deref w a)) in Hk.
  split; [apply frame_eq; [exact Hsch|rewrite Hrows, Hk, Hempty; reflexivity]|].
  split; [rewrite Hout, Hc; apply app_nil_r|].
  rewrite Hfile. unfold outliers_file. rewrite Hc. reflexivity.
Qed.

Lemma empty_table_passes_through_witness :
  exists a' w',
    clean_outliers (PyFrame 0) "outliers.csv" (world0 [frame_empty]) = (Returned a', w') /\
    deref w' a' = frame_empty.
Proof.
  destruct (@empty_table_passes_through 0 "outliers.csv" (world0 [frame_empty]))
    as (a' & w' & H1 & H2 & _).
  - reflexivity.
  - reflexivity.
  - exists a', w'. split; [exact H1|exact H2].
Defined.

(** ** The order of the rows does not matter *)

Lemma float_sub_eq (x x' y y' : float) :
  float_eq x x' -> float_eq y y' -> float_eq (x - y)%fl (x' - y')%fl.
Proof.
  destruct x, x', y, y'; simpl; try tauto. intros H1 H2. rewrite H1, H2. apply Qeq_refl.
Qed.

Lemma float_add_eq (x x' y y' : float) :
  float_eq x x' -> float_eq y y' -> float_eq (x + y)%fl (x' + y')%fl.
Proof.
  destruct x, x', y, y'; simpl; try tauto. intros H1 H2. rewrite H1, H2. apply Qeq_refl.
Qed.

Lemma float_mul_eq (x x' y y' : float) :
  float_eq x x' -> float_eq y y' -> float_eq (x * y)%fl (x' * y')%fl.
Proof.
  destruct x, x', y, y'; simpl; try tauto. intros H1 H2. rewrite H1, H2. apply Qeq_refl.
Qed.

Lemma bounds_perm (s s' : list float) :
  Permutation s s' ->
  float_eq (fst (bounds s)) (fst (bounds s')) /\ float_eq (snd (bounds s)) (snd (bounds s')).
Proof.
  intros H. unfold bounds. cbv zeta. cbn [fst snd].
  pose proof (quantile_perm 0.25 H) as E1. pose proof (quantile_perm 0.75 H) as E3.
  assert (E15 : float_eq (Some 1.5) (Some 1.5)) by apply Qeq_refl.
  split.
  - apply float_sub_eq; [exact E1|]. apply float_mul_eq; [exact E15|].
    apply float_sub_eq; assumption.
  - apply float_add_eq; [exact E3|]. apply float_mul_eq; [exact E15|].
    apply float_sub_eq; assumption.
Qed.

Lemma float_lt_eq (v x x' : float) : float_eq x x' -> (v < x)%fl = (v < x')%fl.
Proof.
  destruct v, x, x'; simpl; try tauto. intros H. unfold Qlt_bool.
  rewrite (Qleb_comp _ _ H _ _ (Qeq_refl q)). reflexivity.
Qed.

Lemma float_gt_eq (v x x' : float) : float_eq x x' -> (v > x)%fl = (v > x')%fl.
Proof.
  unfold Float.gt. destruct v, x, x'; simpl; try tauto. intros H. unfold Qlt_bool.
  rewrite (Qleb_comp _ _ (Qeq_refl q) _ _ H). reflexivity.
Qed.

Lemma is_outlier_bounds_eq (j : nat) (b b' : float * float) (r : Row) :
  float_eq (fst b) (fst b') -> float_eq (snd b) (snd b') ->
  is_outlier j b r = is_outlier j b' r.
Proof.
  intros H1 H2. unfold is_outlier.
  rewrite (float_lt_eq _ _ _ H1), (float_gt_eq _ _ _ H2). reflexivity.
Qed.

Lemma filter_perm (A : Type) (f : A -> bool) (l l' : list A) :
  Permutation l l' -> Permutation (filter f l) (filter f l').
Proof.
  induction 1 as [|x l l' H IH|x y l|l1 l2 l3 H12 IH12 H23 IH23]; simpl.
  - constructor.
  - destruct (f x); [constructor|]; exact IH.
  - destruct (f x), (f y); try apply Permutation_refl. apply perm_swap.
  - eapply Permutation_trans; eassumption.
Qed.

Lemma flagged_retained_perm_rows (j : nat) (rs rs' : list Row) :
  Permutation rs rs' ->
  Permutation (flagged j rs) (flagged j rs') /\ Permutation (retained j rs) (retained j rs').
Proof.
  intros H.
  destruct (bounds_perm (Permutation_map (fun r => to_float (cell j r)) H)) as [E1 E2].
  unfold flagged, retained. split.
  - rewrite (filter_ext _ _ (fun r => is_outlier_bounds_eq j _ _ r E1 E2)).
    apply filter_perm, H.
  - rewrite (filter_ext (fun r => negb (is_outlier j _ r))
                        (fun r => negb (is_outlier j _ r))
                        (fun r => f_equal negb (is_outlier_bounds_eq j _ _ r E1 E2))).
    apply filter_perm, H.
Qed.

Lemma sweep_perm (sch : list (string * dtype)) (cols : list string) :
  forall (j : nat) (rs rs' : list Row),
    Permutation rs rs' ->
    Permutation (fst (sweep sch j cols rs)) (fst (sweep sch j cols rs')) /\
    Permutation (snd (sweep sch j cols rs)) (snd (sweep sch j cols rs')).
Proof.
  induction cols as [|column cols IH]; intros j rs rs' H; simpl.
  - split; [constructor|exact H].
  - destruct (is_numeric_dtype _).
    + destruct (flagged_retained_perm_rows j H) as [Hf Hr].
      specialize (IH (S j) _ _ Hr).
      destruct (sweep sch (S j) cols (retained j rs)) as [out kept].
      destruct (sweep sch (S j) cols (retained j rs')) as [out' kept'].
      simpl in *. destruct IH as [IH1 IH2]. split; [|exact IH2].
      apply Permutation_app; [apply Permutation_map; exact Hf|exact IH1].
    + apply IH. exact H.
Qed.

(** X7: two calls that complete on tables with the same columns and the
    same rows in a different order return the same rows and write the
    same records, up to their order. *)
Theorem row_order_does_not_matter
    (a1 a2 : nat) (csv1 csv2 : string) (w1 w2 w1' w2' : World) (a1' a2' : nat) :
  clean_outliers (PyFrame a1) csv1 w1 = (Returned a1', w1') ->
  clean_outliers (PyFrame a2) csv2 w2 = (Returned a2', w2') ->
  schema (deref w1 a1) = schema (deref w2 a2) ->
  Permutation (rows (deref w1 a1)) (rows (deref w2 a2)) ->
  Permutation (rows (deref w1' a1')) (rows (deref w2' a2')) /\
  exists f1 f2,
    files w1' csv1 = Some f1 /\ files w2' csv2 = Some f2 /\
    Permutation (records f1) (records f2).
Proof.
  intros Hrun1 Hrun2 Hsch Hperm.
  destruct (clean_outliers_returned a1 csv1 w1 Hrun1) as (_ & _ & Hrows1 & _ & Hfile1 & _).
  destruct (clean_outliers_returned a2 csv2 w2 Hrun2) as (_ & _ & Hrows2 & _ & Hfile2 & _).
  destruct (sweep_perm (schema (deref w1 a1)) (columns (deref w1 a1)) 0 Hperm) as [Hc Hk].
  assert (Hcols : columns (deref w2 a2) = columns (deref w1 a1)).
  { unfold columns. rewrite Hsch. reflexivity. }
  split.
  - rewrite Hrows1, Hrows2. unfold kept_rows. rewrite Hcols, <- Hsch. exact Hk.
  - exists (outliers_file (deref w1 a1)), (outliers_file (deref w2 a2)).
    split; [exact Hfile1|]. split; [exact Hfile2|].
    rewrite !outliers_file_records. unfold collected. rewrite Hcols, <- Hsch.
    apply Permutation_map, Permutation_map. exact Hc.
Qed.

Lemma row_order_does_not_matter_witness :
  Permutation (rows (deref (snd docstring_run) 3))
              (rows (deref (snd (clean_outliers (PyFrame 0) "outliers.csv"
                                                (world0 [frame_A_reversed]))) 3)).
Proof.
  apply (@row_order_does_not_matter 0 0 "outliers.csv" "outliers.csv"
           (world0 [frame_A]) (world0 [frame_A_reversed])
           (snd docstring_run)
           (snd (clean_outliers (PyFrame 0) "outliers.csv" (world0 [frame_A_reversed])))
           3 3).
  - reflexivity.
  - reflexivity.
  - reflexivity.
  - apply Permutation_rev.
Defined.

(** ** Rows that always stay *)

Lemma in_map_dropna (f : Row -> float) (rs : list Row) (r : Row) (x : Q) :
  In r rs -> f r = Some x -> In x (dropna (map f rs)).
Proof.
  induction rs as [|r0 rs IH]; simpl; [intros []|].
  intros [E|Hin] Hf.
  - subst r0. rewrite Hf. left. reflexivity.
  - destruct (f r0); [right|]; apply IH; assumption.
Qed.



(** X10: in a frame with distinct labels and int64, float64 or
    non-numeric columns, the pass of a column whose present values are all
    equal changes nothing: no row is dropped, nothing is collected, nothing
    is printed. *)
Theorem constant_column_flags_nothing
    (j : nat) (column : string) (l : Locals) (w : World) (c : Q) :
  plain_frame (deref w (cleaned_data l)) ->
  Forall (fun x => x == c) (dropna (getitem (deref w (cleaned_data l)) j)) ->
  rows (deref (snd (loop_body j column l w))
              (cleaned_data (fst (loop_body j column l w)))) =
    rows (deref w (cleaned_data l)) /\
  outlier_rows (fst (loop_body j column l w)) = outlier_rows l /\
  stdout (snd (loop_body j column l w)) = stdout w.
Proof.
  intros _ Hall.
  destruct (is_numeric_dtype (dtype_at (deref w (cleaned_data l)) j)) eqn:Hnum.
  - rewrite (loop_body_numeric j column l w Hnum). cbv zeta. simpl.
    unfold deref at 1. simpl. rewrite nth_app_second. simpl.
    set (df := deref w (cleaned_data l)) in *. unfold getitem in Hall.
    set (s := map (fun r => to_float (cell j r)) (rows df)) in *.
    assert (Hno : forall r, In r (rows df) -> is_outlier j (bounds s) r = false).
    { intros r Hr. destruct (dropna s) as [|x xs] eqn:Hd.
      - rewrite (bounds_none s Hd). apply is_outlier_nan_bounds.
      - assert (Hne : dropna s <> []) by (rewrite Hd; discriminate).
        rewrite <- Hd in Hall.
        destruct (bounds_constant s Hne Hall) as (_ & Hlo & Hhi).
        unfold is_outlier, Float.gt, Float.lt.
        destruct (to_float (cell j r)) as [v|] eqn:Hv;
          [|destruct (fst (bounds s)), (snd (bounds s)); reflexivity].
        assert (Hvc : v == c).
        { rewrite Forall_forall in Hall. apply Hall.
          apply (in_map_dropna (fun r => to_float (cell j r)) (rows df) r Hr Hv). }
        destruct (fst (bounds s)) as [lb|]; [|contradiction].
        destruct (snd (bounds s)) as [ub|]; [|contradiction].
        simpl in Hlo, Hhi. rewrite !Qlt_bool_false by lra. reflexivity. }
    unfold retained, flagged. fold s.
    rewrite filter_all by (intros r Hr; rewrite (Hno r Hr); reflexivity).
    rewrite filter_none by exact Hno.
    simpl. rewrite !app_nil_r. auto.
  - rewrite (loop_body_skip j column l w Hnum). auto.
Qed.

Lemma constant_column_flags_nothing_witness :
  rows (deref (snd (loop_body 0 "A" docstring_A_locals
                              (world0 [ {| schema := schema frame_A;
                                           rows := [row_of 0 [5%Z]; row_of 1 [5%Z]] |} ])))
              (cleaned_data (fst (loop_body 0 "A" docstring_A_locals
                              (world0 [ {| schema := schema frame_A;
                                           rows := [row_of 0 [5%Z]; row_of 1 [5%Z]] |} ]))))) =
  [row_of 0 [5%Z]; row_of 1 [5%Z]].
Proof.
  apply (@constant_column_flags_nothing 0 "A" docstring_A_locals
           (world0 [ {| schema := schema frame_A;
                        rows := [row_of 0 [5%Z]; row_of 1 [5%Z]] |} ]) 5).
  - split; repeat constructor; simpl; intuition discriminate.
  - repeat constructor.
Defined.

(** X11: rows holding the same values share their fate: when a row of the
    input is returned, every input row with the same values is returned
    too, whatever its index label. *)
Theorem equal_rows_share_their_fate
    (a : nat) (outliers_csv : string) (w w' : World) (a' : nat) (r r' : Row) :
  clean_outliers (PyFrame a) outliers_csv w = (Returned a', w') ->
  In r (rows (deref w' a')) ->
  In r' (rows (deref w a)) ->
  cells r' = cells r ->
  In r' (rows (deref w' a')).
Proof.
  intros Hrun Hkept Hin Hsame.
  destruct (clean_outliers_returned a outliers_csv w Hrun) as (_ & _ & Hrows & _).
  rewrite Hrows in *. unfold kept_rows in *.
  pose proof (sweep_partition (schema (deref w a)) (columns (deref w a)) 0
                              (rows (deref w a))) as Hperm.
  apply (Permutation_in r' (Permutation_sym Hperm)) in Hin.
  apply in_app_or in Hin. destruct Hin as [Hout|Hin]; [|exact Hin].
  exfalso. apply (sweep_disjoint _ _ _ _ r Hkept).
  rewrite <- Hsame. apply in_map. exact Hout.
Qed.

Lemma equal_rows_share_their_fate_witness :
  In (row_of 1 [5%Z])
     (rows (deref (snd (clean_outliers (PyFrame 0) "outliers.csv" (world0 [frame_557]))) 3)).
Proof.
  apply (@equal_rows_share_their_fate 0 "outliers.csv" (world0 [frame_557])
           (snd (clean_outliers (PyFrame 0) "outliers.csv" (world0 [frame_557]))) 3
           (row_of 0 [5%Z]) (row_of 1 [5%Z])).
  - reflexivity.
  - simpl. tauto.
  - simpl. tauto.
  - reflexivity.
Defined.

(** ** Missing values in a float64 column *)

(** X13: in a frame with distinct labels and int64, float64 or non-numeric
    columns, a row whose value in a column is NaN stays in the table
    through the pass of that column; a row of the input that the call does
    not return was printed for a column in which its value is a number; and
    a numeric column with no value present has NaN quartiles and its pass
    collects nothing, prints nothing and drops nothing. *)
Theorem missing_values_are_never_flagged :
  (forall (j : nat) (column : string) (l : Locals) (w : World) (r : Row),
     plain_frame (deref w (cleaned_data l)) ->
     cell j r = VNaN ->
     In r (rows (deref w (cleaned_data l))) ->
     In r (rows (deref (snd (loop_body j column l w))
                       (cleaned_data (fst (loop_body j column l w)))))) /\
  (forall (a : nat) (outliers_csv : string) (w w' : World) (a' : nat) (r : Row),
     plain_frame (deref w a) ->
     clean_outliers (PyFrame a) outliers_csv w = (Returned a', w') ->
     In r (rows (deref w a)) ->
     ~ In r (rows (deref w' a')) ->
     exists printed d x,
       stdout w' = stdout w ++ printed /\ In d printed /\
       diag_row d = label r /\ diag_value d = VNum x) /\
  (forall (j : nat) (column : string) (l : Locals) (w : World),
     plain_frame (deref w (cleaned_data l)) ->
     is_numeric_dtype (dtype_at (deref w (cleaned_data l)) j) = true ->
     dropna (getitem (deref w (cleaned_data l)) j) = [] ->
     quantile 0.25 (getitem (deref w (cleaned_data l)) j) = nan /\
     quantile 0.75 (getitem (deref w (cleaned_data l)) j) = nan /\
     rows (deref (snd (loop_body j column l w))
                 (cleaned_data (fst (loop_body j column l w)))) =
       rows (deref w (cleaned_data l)) /\
     outlier_rows (fst (loop_body j column l w)) = outlier_rows l /\
     stdout (snd (loop_body j column l w)) = stdout w).
Proof.
  split; [|split].
  - intros j column l w r _ Hnan Hin.
    destruct (loop_body_pass j column l w) as (_ & _ & Hleft). rewrite Hleft.
    destruct (is_numeric_dtype (dtype_at (deref w (cleaned_data l)) j)); [|exact Hin].
    unfold retained. apply filter_In. split; [exact Hin|].
    unfold is_outlier, Float.gt, Float.lt. rewrite Hnan. cbn [to_float nan].
    match goal with |- context [bounds ?s] => destruct (fst (bounds s)), (snd (bounds s)) end;
      reflexivity.
  - intros a outliers_csv w w' a' r _ Hrun Hin Hgone.
    destruct (clean_outliers_returned a outliers_csv w Hrun)
      as (_ & _ & Hrows & Hout & _).
    pose proof (sweep_partition (schema (deref w a)) (columns (deref w a)) 0
                                (rows (deref w a))) as Hperm.
    apply (Permutation_in r (Permutation_sym Hperm)) in Hin.
    apply in_app_or in Hin. destruct Hin as [Hin|Hin].
    + apply in_map_iff in Hin. destruct Hin as (e & E & He).
      destruct (sweep_collected_present _ _ _ _ e He) as (x & Hx).
      exists (map entry_diagnostic (collected (deref w a))), (entry_diagnostic e), x.
      split; [exact Hout|]. split; [apply in_map; exact He|].
      unfold entry_row in E. unfold entry_diagnostic, as_diagnostic. simpl.
      split; [rewrite E; reflexivity|exact Hx].
    + exfalso. apply Hgone. rewrite Hrows. exact Hin.
  - intros j column l w _ Hnum Hempty.
    split; [apply quantile_none; exact Hempty|].
    split; [apply quantile_none; exact Hempty|].
    destruct (loop_body_pass j column l w) as (Hnew & Hprint & Hleft).
    rewrite Hnew, Hprint, Hleft, Hnum.
    unfold getitem in Hempty.
    unfold retained, flagged. rewrite (bounds_none _ Hempty).
    rewrite filter_all, filter_none; try (intros; apply is_outlier_nan_bounds).
    + simpl. rewrite !app_nil_r. auto.
    + intros x _. rewrite is_outlier_nan_bounds. reflexivity.
Qed.

Lemma missing_values_are_never_flagged_witness :
  In {| label := 1; cells := [VNaN] |}
     (rows (deref (snd (loop_body 0 "A" docstring_A_locals (world0 [frame_nan])))
                  (cleaned_data (fst (loop_body 0 "A" docstring_A_locals (world0 [frame_nan])))))) /\
  (exists printed d x,
     stdout (snd run_nan) = stdout (world0 [frame_nan]) ++ printed /\ In d printed /\
     diag_row d = label (row_of 4 [1000%Z]) /\ diag_value d = VNum x) /\
  quantile 0.25 (getitem (deref (world0 [frame_all_nan]) (cleaned_data docstring_A_locals)) 0) = nan /\
  rows (deref (snd (loop_body 0 "A" docstring_A_locals (world0 [frame_all_nan])))
              (cleaned_data (fst (loop_body 0 "A" docstring_A_locals (world0 [frame_all_nan]))))) =
    rows (deref (world0 [frame_all_nan]) (cleaned_data docstring_A_locals)).
Proof.
  destruct missing_values_are_never_flagged as (P1 & P2 & P3).
  split; [|split].
  - apply (P1 0%nat "A"%string docstring_A_locals (world0 [frame_nan])
              {| label := 1; cells := [VNaN] |}).
    + split; repeat constructor; simpl; intuition discriminate.
    + reflexivity.
    + simpl. tauto.
  - apply (P2 0%nat "outliers.csv"%string (world0 [frame_nan]) (snd run_nan) 3%nat
              (row_of 4 [1000%Z])).
    + split; repeat constructor; simpl; intuition discriminate.
    + reflexivity.
    + simpl. tauto.
    + vm_compute. intros [H|[H|[H|[H|[]]]]]; discriminate H.
  - destruct (P3 0%nat "A"%string docstring_A_locals (world0 [frame_all_nan]))
      as (H1 & _ & H3 & _).
    + split; repeat constructor; simpl; intuition discriminate.
    + reflexivity.
    + reflexivity.
    + split; [exact H1|exact H3].
Defined.
